(** * deconz-api, examples/mgmt-lqi.js: the discovery driver [DeconzTest]

    A shallow embedding of the class [DeconzTest] of [examples/mgmt-lqi.js]:
    the device-parameter reads followed by the paginated Management-LQI
    (neighbor table) walk, driven by decoded inbound frames.

    The object is a record, its methods are computations in a small
    state / trace / exception monad: a method mutates [this], writes frames
    to the serial port and to the console, and may throw (the callers at
    lines 72-78 and 88-94 catch, so what a throwing call already did to
    [this] and to the port stays). *)

From Stdlib Require Import ZArith Lia.
From stdpp Require Import base gmap strings list fin_maps.

Local Open Scope Z_scope.

(** ** Values and constants of the collaborating libraries *)

(** A JavaScript value as far as this file looks at one: a frame field that
    is absent reads as [undefined]; present fields are numbers or (hex)
    strings. *)
Inductive value : Type :=
  | VUndefined
  | VNumber (n : Z)
  | VString (s : string).

#[global] Instance value_eq_dec : EqDecision value.
Proof. solve_decision. Defined.

(** Modelled from the spec: the enumeration [C.FRAME_TYPE] of
    [lib/deconz-api] is not part of the sources at hand.  The four
    enumerants this file names are kept; [OTHER_FRAME_TYPE] stands for every
    other enumerant (device state, version, write parameter, ...). *)
Inductive FRAME_TYPE : Type :=
  | APS_DATA_CONFIRM
  | READ_PARAMETER
  | APS_DATA_REQUEST
  | APS_DATA_INDICATION
  | OTHER_FRAME_TYPE.

#[global] Instance FRAME_TYPE_eq_dec : EqDecision FRAME_TYPE.
Proof. solve_decision. Defined.

(** Modelled from the spec: the identifiers [C.PARAM_ID.*] of
    [lib/deconz-api] are not part of the sources at hand; these are the
    thirteen that [PARAM] (lines 21-35) lists. *)
Inductive PARAM_ID : Type :=
  | MAC_ADDRESS
  | NETWORK_PANID16
  | NETWORK_ADDR16
  | NETWORK_PANID64
  | APS_DESIGNATED_COORDINATOR
  | SCAN_CHANNELS
  | APS_PANID64
  | TRUST_CENTER_ADDR64
  | SECURITY_MODE
  | NETWORK_KEY
  | OPERATING_CHANNEL
  | PROTOCOL_VERSION
  | NETWORK_UPDATE_ID.

#[global] Instance PARAM_ID_eq_dec : EqDecision PARAM_ID.
Proof. solve_decision. Defined.

(** Modelled from the spec: the cluster identifiers [zdo.CLUSTER_ID.*] of
    [zigbee-zdo] are not part of the sources at hand; the ZigBee Device
    Profile numbers Mgmt_Lqi_req 0x0031 and Mgmt_Lqi_rsp 0x8031. *)
Definition MANAGEMENT_LQI_REQUEST : Z := 0x0031.
Definition MANAGEMENT_LQI_RESPONSE : Z := 0x8031.

(** ** Frames *)

(** One entry of [frame.neighbors]. *)
Record Neighbor : Type := mkNeighbor {
  neighbor_addr64 : string;
  neighbor_addr16 : string;
}.

(** A decoded inbound frame as [handleFrame] sees it after lines 144-152
    (the ZDO decoration of lines 146-148 done, [zdo.getClusterIdAsInt]
    applied to [clusterId]).  [dataConfirm] and [dataIndication] are [None]
    when the frame has no such own property; [params] holds the fields that
    [frame[fieldName]] reads. *)
Record Frame : Type := mkFrame {
  type : FRAME_TYPE;
  dataConfirm : option bool;
  dataIndication : option bool;
  params : gmap string value;
  clusterId : Z;
  startIndex : Z;
  numEntries : Z;
  numEntriesThisResponse : Z;
  neighbors : list Neighbor;
}.

(** [frame.hasOwnProperty(p) && frame[p]] *)
Definition own_truthy (p : option bool) : bool :=
  match p with
  | Some b => b
  | None => false
  end.

(** What [sendFrame] is given: an object literal [{type, paramId}] of lines
    162-164, 169-171 and 234-237, or the result of [zdo.makeFrame] on the
    literal of lines 183-188 (no [type]) and 202-208 (with [type]). *)
Inductive OutFrame : Type :=
  | DeconzFrame (ty : FRAME_TYPE) (paramId : option PARAM_ID)
  | ZdoFrame (ty : option FRAME_TYPE) (destination64 : value)
             (destination16 : string) (cluster : Z) (start : Z).

#[global] Instance OutFrame_eq_dec : EqDecision OutFrame.
Proof. solve_decision. Defined.

(** ** The object *)

(** [class Node] (lines 44-49).  [oid] is the identity of the object that
    [new Node] allocates: two nodes with equal addresses made by two [new]
    are two objects. *)
Record Node : Type := mkNode {
  oid : nat;
  addr64 : string;
  addr16 : string;
}.

#[global] Instance Node_eq_dec : EqDecision Node.
Proof. solve_decision. Defined.

(** The properties of a [DeconzTest] that the methods below read or write.
    [fields] holds the dynamically named properties of line 179
    ([this[fieldName]]), which the parameter table keeps apart from the
    fixed ones; [allocated] counts the [Node]s made so far.
    [deviceStateUpdateInProgress] is unset (falsy) until first assigned. *)
Record DeconzTest : Type := mkDeconzTest {
  paramIdx : Z;
  deviceStateUpdateInProgress : bool;
  fields : gmap string value;
  node16 : gmap string Node;
  node64 : gmap string Node;
  allocated : nat;
}.

(** Effects outside the object, in the order they happen. *)
Inductive Event : Type :=
  | Sent (f : OutFrame)                      (* serialport.write, line 253 *)
  | LogParameter (p : PARAM_ID) (v : value)  (* console.log, line 139 *)
  | LogNodes (nodes : gmap string Node)      (* dumpNodes, lines 121-129 *)
  | PortClosed.                              (* demoDone, lines 116-119 *)

(** ** The monad of method bodies *)

Inductive completion (A : Type) : Type :=
  | Normal (a : A)
  | Thrown.
Arguments Normal {A} a.
Arguments Thrown {A}.

Record outcome (A : Type) : Type := mkOutcome {
  result : completion A;
  final : DeconzTest;
  trace : list Event;
}.
Arguments mkOutcome {A} result final trace.
Arguments result {A} o.
Arguments final {A} o.
Arguments trace {A} o.

Definition M (A : Type) : Type := DeconzTest -> outcome A.

Definition ret {A} (a : A) : M A := fun this => mkOutcome (Normal a) this [].

Definition throw {A} : M A := fun this => mkOutcome Thrown this [].

Definition bind {A B} (m : M A) (k : A -> M B) : M B := fun this =>
  let o := m this in
  match result o with
  | Normal a =>
      let o' := k a (final o) in
      mkOutcome (result o') (final o') (trace o ++ trace o')
  | Thrown => mkOutcome Thrown (final o) (trace o)
  end.

Declare Scope js_scope.
Delimit Scope js_scope with js.
Notation "x <~ m ;; k" := (bind m (fun x => k))
  (at level 100, m at next level, right associativity) : js_scope.
Notation "m ;;; k" := (bind m (fun _ => k))
  (at level 100, right associativity) : js_scope.
Local Open Scope js_scope.

Definition get {A} (proj : DeconzTest -> A) : M A :=
  fun this => mkOutcome (Normal (proj this)) this [].

Definition modify (f : DeconzTest -> DeconzTest) : M unit :=
  fun this => mkOutcome (Normal tt) (f this) [].

Definition emit (e : Event) : M unit :=
  fun this => mkOutcome (Normal tt) this [e].

Definition set_paramIdx (i : Z) (this : DeconzTest) : DeconzTest :=
  mkDeconzTest i (deviceStateUpdateInProgress this) (fields this)
               (node16 this) (node64 this) (allocated this).

Definition set_deviceStateUpdateInProgress (b : bool) (this : DeconzTest)
  : DeconzTest :=
  mkDeconzTest (paramIdx this) b (fields this)
               (node16 this) (node64 this) (allocated this).

Definition set_field (name : string) (v : value) (this : DeconzTest)
  : DeconzTest :=
  mkDeconzTest (paramIdx this) (deviceStateUpdateInProgress this)
               (<[name := v]> (fields this))
               (node16 this) (node64 this) (allocated this).

(** [this[name]]: a property never assigned reads as [undefined]. *)
Definition get_field (name : string) (this : DeconzTest) : value :=
  default VUndefined (fields this !! name).

(** [frame[name]] *)
Definition frame_field (frame : Frame) (name : string) : value :=
  default VUndefined (params frame !! name).

(** [a[i]] for an array [a] and a number [i]: [None] is [undefined]. *)
Definition index {A} (a : list A) (i : Z) : option A :=
  if decide (0 <= i) then a !! Z.to_nat i else None.

(** The two assignments of lines 216-217 with the [new Node] of line 215. *)
Definition register (n : Neighbor) (this : DeconzTest) : DeconzTest :=
  let node := mkNode (allocated this) (neighbor_addr64 n) (neighbor_addr16 n) in
  mkDeconzTest (paramIdx this) (deviceStateUpdateInProgress this) (fields this)
               (<[neighbor_addr16 n := node]> (node16 this))
               (<[neighbor_addr64 n := node]> (node64 this))
               (S (allocated this)).

(** ** The methods of [DeconzTest] *)

Section Methods.

(** The descriptor list [PARAM] of lines 21-35; a variable here because
    the behaviour on an empty or shorter list is asked about as well. *)
Variable PARAM : list PARAM_ID.

(** [C.PARAM_ID[paramId].fieldName]: the table is in [lib/deconz-api].  Its
    names are properties of their own, none of them one of the fixed
    properties of the record [DeconzTest]. *)
Variable fieldName : PARAM_ID -> string.

(** [PARAM.length] *)
Definition PARAM_length : Z := Z.of_nat (length PARAM).

(** Lines 245-254.  The console dump of the frame is left out. *)
Definition sendFrame (frame : OutFrame) : M unit := emit (Sent frame).

(** Lines 116-119. *)
Definition demoDone : M unit := emit PortClosed.

(** Lines 121-129. *)
Definition dumpNodes : M unit :=
  nodes <~ get node16 ;; emit (LogNodes nodes).

(** Lines 131-141, the loop over [PARAM] from some position on.
    [value.toString(16)] of line 137 throws on [undefined]. *)
Fixpoint dumpParametersOf (ps : list PARAM_ID) : M unit :=
  match ps with
  | [] => ret tt
  | paramId :: rest =>
      value <~ get (get_field (fieldName paramId)) ;;
      (if decide (paramId = SCAN_CHANNELS)
       then match value with
            | VUndefined => throw
            | _ => ret tt
            end
       else ret tt) ;;;
      emit (LogParameter paramId value) ;;;
      dumpParametersOf rest
  end.

Definition dumpParameters : M unit := dumpParametersOf PARAM.

(** Lines 201-210. *)
Definition managementLqi (startIndex : Z) : M unit :=
  macAddress <~ get (get_field "macAddress") ;;
  sendFrame (ZdoFrame (Some APS_DATA_REQUEST) macAddress "0000"
                      MANAGEMENT_LQI_REQUEST startIndex).

(** Lines 213-218: the [for] loop at index [idx] with [remaining]
    iterations to go.  [neighbor.addr64] throws when [frame.neighbors] has
    no entry at [idx]. *)
Fixpoint registerNeighbors (frame : Frame) (remaining : nat) (idx : Z)
  : M unit :=
  match remaining with
  | O => ret tt
  | S remaining' =>
      match index (neighbors frame) idx with
      | None => throw
      | Some neighbor =>
          modify (register neighbor) ;;;
          registerNeighbors frame remaining' (idx + 1)
      end
  end.

(** Lines 212-226.  The loop test [idx < frame.numEntriesThisResponse]
    holds for [idx = 0, 1, ...] exactly [Z.to_nat numEntriesThisResponse]
    times. *)
Definition handleManagementLqiResponse (frame : Frame) : M unit :=
  registerNeighbors frame (Z.to_nat (numEntriesThisResponse frame)) 0 ;;;
  let nextStartIndex := startIndex frame + numEntriesThisResponse frame in
  if decide (nextStartIndex < numEntries frame)
  then managementLqi nextStartIndex
  else dumpNodes ;;; demoDone.

(** Lines 228-238. *)
Definition readParameter (paramIdx : Z) : M unit :=
  if decide (PARAM_length <= paramIdx)
  then managementLqi 0
  else sendFrame (DeconzFrame READ_PARAMETER (index PARAM paramIdx)).

(** Lines 240-243. *)
Definition readParameters : M unit :=
  modify (set_paramIdx 0) ;;;
  idx <~ get paramIdx ;;
  readParameter idx.

(** Lines 154-157 of [handleFrame]. *)
Definition clearOnApsData (frame : Frame) : M unit :=
  if decide (type frame = APS_DATA_INDICATION
             \/ type frame = APS_DATA_CONFIRM)
  then modify (set_deviceStateUpdateInProgress false)
  else ret tt.

(** Lines 159-173 of [handleFrame]. *)
Definition pollPending (frame : Frame) : M unit :=
  if own_truthy (dataConfirm frame)
  then modify (set_deviceStateUpdateInProgress true) ;;;
       sendFrame (DeconzFrame APS_DATA_CONFIRM None)
  else
    inProgress <~ get deviceStateUpdateInProgress ;;
    if negb inProgress
    then if own_truthy (dataIndication frame)
         then modify (set_deviceStateUpdateInProgress true) ;;;
              sendFrame (DeconzFrame APS_DATA_INDICATION None)
         else ret tt
    else ret tt.

(** Lines 175-198 of [handleFrame].  [C.PARAM_ID[paramId]] of line 178 is
    [undefined] for an [undefined] [paramId], and reading [.fieldName] of
    it throws. *)
Definition dispatch (frame : Frame) : M unit :=
  if decide (type frame = READ_PARAMETER)
  then
    idx <~ get paramIdx ;;
    if decide (idx < PARAM_length)
    then match index PARAM idx with
         | None => throw
         | Some paramId =>
             modify (set_field (fieldName paramId)
                               (frame_field frame (fieldName paramId))) ;;;
             modify (set_paramIdx (idx + 1)) ;;;
             if decide (idx + 1 = PARAM_length)
             then dumpParameters ;;;
                  macAddress <~ get (get_field "macAddress") ;;
                  sendFrame (ZdoFrame None macAddress "0000"
                                      MANAGEMENT_LQI_REQUEST 0)
             else readParameter (idx + 1)
         end
    else ret tt
  else if decide (type frame = APS_DATA_INDICATION)
  then if decide (clusterId frame = MANAGEMENT_LQI_RESPONSE)
       then handleManagementLqiResponse frame
       else ret tt
  else ret tt.

(** Lines 143-199. *)
Definition handleFrame (frame : Frame) : M unit :=
  clearOnApsData frame ;;;
  pollPending frame ;;;
  dispatch frame.

(** The listener of lines 87-95: an exception of [handleFrame] is caught
    and reported, the object stays as the throwing call left it. *)
Definition onFrame (frame : Frame) : M unit := fun this =>
  let o := handleFrame frame this in
  mkOutcome (Normal tt) (final o) (trace o).

(** Frames delivered one after the other, in arrival order. *)
Fixpoint deliver (frames : list Frame) : M unit :=
  match frames with
  | [] => ret tt
  | frame :: rest => onFrame frame ;;; deliver rest
  end.

(** The properties the constructor sets (lines 55-56), before
    [readParameters] gives [paramIdx] its first value. *)
Definition constructed : DeconzTest :=
  mkDeconzTest 0 false ∅ ∅ ∅ 0.

(** A run: the port opens, [readParameters] is called (line 112), then
    the frames arrive. *)
Definition run (frames : list Frame) : outcome unit :=
  (readParameters ;;; deliver frames) constructed.

End Methods.

(** ** The script's own data *)

(** Lines 21-35. *)
Definition PARAM : list PARAM_ID :=
  [ MAC_ADDRESS; NETWORK_PANID16; NETWORK_ADDR16; NETWORK_PANID64;
    APS_DESIGNATED_COORDINATOR; SCAN_CHANNELS; APS_PANID64;
    TRUST_CENTER_ADDR64; SECURITY_MODE; NETWORK_KEY; OPERATING_CHANNEL;
    PROTOCOL_VERSION; NETWORK_UPDATE_ID ].

(** Modelled from the spec: the table [C.PARAM_ID] of [lib/deconz-api],
    which gives every identifier its [fieldName], is not part of the sources
    at hand.  Camel-case names, one per identifier; [macAddress] is the one
    lines 184 and 204 read back. *)
Definition fieldName (paramId : PARAM_ID) : string :=
  match paramId with
  | MAC_ADDRESS => "macAddress"
  | NETWORK_PANID16 => "networkPanId16"
  | NETWORK_ADDR16 => "networkAddr16"
  | NETWORK_PANID64 => "networkPanId64"
  | APS_DESIGNATED_COORDINATOR => "apsDesignatedCoordinator"
  | SCAN_CHANNELS => "scanChannels"
  | APS_PANID64 => "apsPanId64"
  | TRUST_CENTER_ADDR64 => "trustCenterAddr64"
  | SECURITY_MODE => "securityMode"
  | NETWORK_KEY => "networkKey"
  | OPERATING_CHANNEL => "operatingChannel"
  | PROTOCOL_VERSION => "protocolVersion"
  | NETWORK_UPDATE_ID => "networkUpdateId"
  end.

(** ** Reading traces *)

(** The frames written to the port, in order. *)
Definition sent (events : list Event) : list OutFrame :=
  omap (fun e => match e with Sent f => Some f | _ => None end) events.

(** The [startIndex] of every ZDO request written to the port, in order. *)
Definition zdo_starts (events : list Event) : list Z :=
  omap (fun e => match e with
                 | Sent (ZdoFrame _ _ _ _ start) => Some start
                 | _ => None
                 end) events.

(** The request of lines 183-188, built without a [type]: it is sent when
    the last parameter has been read, and nowhere else. *)
Definition is_first_lqi_request (e : Event) : bool :=
  match e with
  | Sent (ZdoFrame None _ _ _ _) => true
  | _ => false
  end.

Definition is_confirm_request (e : Event) : bool :=
  match e with
  | Sent (DeconzFrame APS_DATA_CONFIRM _) => true
  | _ => false
  end.

(** The object after lines 154-173 of [handleFrame], before the frame is
    looked at for what it answers. *)
Definition polled (frame : Frame) (this : DeconzTest) : DeconzTest :=
  final (pollPending frame (final (clearOnApsData frame this))).

(** ** What a method leaves alone *)

Definition preserves {A B} (proj : DeconzTest -> B) (m : M A) : Prop :=
  forall this, proj (final (m this)) = proj this.

Definition emits_only {A} (P : Event -> Prop) (m : M A) : Prop :=
  forall this, Forall P (trace (m this)).

(** ** The properties under study *)

Definition confirm_request : OutFrame := DeconzFrame APS_DATA_CONFIRM None.
Definition indication_request : OutFrame := DeconzFrame APS_DATA_INDICATION None.

Section Properties.

Variable PARAM : list PARAM_ID.
Variable fieldName : PARAM_ID -> string.

(** Confirmation priority: a parameter response that carries the
    pending-confirm signal gets the confirm handled and leaves the cursor
    where it was. *)
Definition confirmation_priority (this : DeconzTest) (frame : Frame) : Prop :=
  own_truthy (dataConfirm frame) = true ->
  type frame = READ_PARAMETER ->
  let o := handleFrame PARAM fieldName frame this in
  deviceStateUpdateInProgress (final o) = true
  /\ Sent confirm_request ∈ trace o
  /\ paramIdx (final o) = paramIdx this.

(** Confirmation gated by the flag: a pending-confirm signal is answered
    when nothing is in flight, and not answered when something is. *)
Definition confirmation_gated (this : DeconzTest) (frame : Frame) : Prop :=
  own_truthy (dataConfirm frame) = true ->
  let o := handleFrame PARAM fieldName frame this in
  if deviceStateUpdateInProgress this
  then Sent confirm_request ∉ trace o
  else deviceStateUpdateInProgress (final o) = true
       /\ Sent confirm_request ∈ trace o.

(** A data frame with the pending-indication signal always gets the
    indication fetched. *)
Definition indication_refetched (this : DeconzTest) (frame : Frame) : Prop :=
  type frame = APS_DATA_INDICATION \/ type frame = APS_DATA_CONFIRM ->
  own_truthy (dataIndication frame) = true ->
  Sent indication_request ∈ trace (handleFrame PARAM fieldName frame this).

(** [frame] answers a request the object has open: a parameter response
    while parameters are being read, a neighbor-table response once they
    are read, or a frame with one of the two pending signals. *)
Definition expected (this : DeconzTest) (frame : Frame) : bool :=
  bool_decide (type frame = READ_PARAMETER
               /\ paramIdx this < PARAM_length PARAM)
  || bool_decide (type frame = APS_DATA_INDICATION
                  /\ clusterId frame = MANAGEMENT_LQI_RESPONSE
                  /\ PARAM_length PARAM <= paramIdx this)
  || own_truthy (dataConfirm frame)
  || own_truthy (dataIndication frame).

(** Idle tolerance: a frame that is not [expected] changes nothing and
    sends nothing. *)
Definition idle_tolerance (this : DeconzTest) (frame : Frame) : Prop :=
  expected this frame = false ->
  let o := handleFrame PARAM fieldName frame this in
  paramIdx (final o) = paramIdx this
  /\ deviceStateUpdateInProgress (final o) = deviceStateUpdateInProgress this
  /\ node16 (final o) = node16 this
  /\ node64 (final o) = node64 this
  /\ sent (trace o) = [].

(** A parameter response the cursor accepts (line 176). *)
Definition accepted (this : DeconzTest) (frame : Frame) : Prop :=
  type frame = READ_PARAMETER /\ paramIdx this < PARAM_length PARAM.

#[global] Instance accepted_dec this frame : Decision (accepted this frame).
Proof. unfold accepted. apply _. Defined.

End Properties.

(** Registering a pair again keeps the [Node] that is there. *)
Definition registration_keeps_node (this : DeconzTest) (n : Neighbor) : Prop :=
  let once := register n this in
  let twice := register n once in
  node16 twice !! neighbor_addr16 n = node16 once !! neighbor_addr16 n
  /\ node64 twice !! neighbor_addr64 n = node64 once !! neighbor_addr64 n.

(** The two mappings hold the same [Node] objects. *)
Definition registry_linked (this : DeconzTest) : Prop :=
  forall node : Node,
    (exists short, node16 this !! short = Some node)
    <-> (exists long, node64 this !! long = Some node).

(** The short and the long addresses of a list of table entries fix each
    other. *)
Definition pair_consistent (entries : list Neighbor) : Prop :=
  forall a b, a ∈ entries -> b ∈ entries ->
    (neighbor_addr16 a = neighbor_addr16 b
     <-> neighbor_addr64 a = neighbor_addr64 b).

(** The table entries that [handleFrame] registers from [frame]: those the
    loop of lines 213-218 reaches. *)
Definition entries (frame : Frame) : list Neighbor :=
  if decide (type frame = APS_DATA_INDICATION
             /\ clusterId frame = MANAGEMENT_LQI_RESPONSE)
  then take (Z.to_nat (numEntriesThisResponse frame)) (neighbors frame)
  else [].

(** ** The registry *)

(** Table entries registered first to last (lines 213-218, the loop run to
    its end). *)
Definition register_all (table : list Neighbor) (this : DeconzTest)
  : DeconzTest :=
  foldl (fun s nb => register nb s) this table.

(** Two objects with the same registry. *)
Definition same_registry (a b : DeconzTest) : Prop :=
  node16 a = node16 b /\ node64 a = node64 b /\ allocated a = allocated b.

(** The address pair a [Node] was made from. *)
Definition pair_of (node : Node) : Neighbor :=
  mkNeighbor (addr64 node) (addr16 node).

(** Every [Node] sits under its own address in the mapping that holds it. *)
Definition keyed (this : DeconzTest) : Prop :=
  (forall short node, node16 this !! short = Some node -> addr16 node = short)
  /\ (forall long node, node64 this !! long = Some node -> addr64 node = long).

(** Every [Node] of one mapping sits under its other address in the other
    mapping, and was made from one of the entries [seen]. *)
Definition cross_linked (this : DeconzTest) (seen : list Neighbor) : Prop :=
  (forall short node,
      node16 this !! short = Some node ->
      addr16 node = short
      /\ node64 this !! addr64 node = Some node
      /\ pair_of node ∈ seen)
  /\ (forall long node,
      node64 this !! long = Some node ->
      addr64 node = long
      /\ node16 this !! addr16 node = Some node
      /\ pair_of node ∈ seen).

(** ** Sample frames and objects *)

(** The object when the port has opened and the first read is out. *)
Definition opened : DeconzTest := final (readParameters PARAM constructed).

(** A parameter response with the device-state bits [confirm] and
    [indication] and one field. *)
Definition parameter_response (confirm indication : bool)
    (name : string) (v : value) : Frame :=
  mkFrame READ_PARAMETER (Some confirm) (Some indication) {[ name := v ]}
          0 0 0 0 [].

(** A frame that answers nothing, with the two device-state bits. *)
Definition status_frame (ty : FRAME_TYPE) (confirm indication : bool) : Frame :=
  mkFrame ty (Some confirm) (Some indication) ∅ 0 0 0 0 [].

(** A Management-LQI response. *)
Definition lqi_response (start total : Z) (table : list Neighbor) : Frame :=
  mkFrame APS_DATA_INDICATION (Some false) (Some false) ∅
          MANAGEMENT_LQI_RESPONSE start total (Z.of_nat (length table)) table.

(** The object with a confirmation in flight. *)
Definition confirming : DeconzTest :=
  final (handleFrame PARAM fieldName (status_frame OTHER_FRAME_TYPE true false)
                     opened).

(** The table entry of the device with short address [short]. *)
Definition entry (short : string) : Neighbor :=
  mkNeighbor (String.append "00212effff00" short) short.

(** The responses to the thirteen parameter reads, in the order asked. *)
Definition parameter_responses : list Frame :=
  map (fun p => parameter_response false false (fieldName p) (VNumber 1)) PARAM.

(** A neighbor table of twelve entries, returned in pages of five, five and
    two. *)
Definition page1 : Frame :=
  lqi_response 0 12 (map entry ["0001"; "0002"; "0003"; "0004"; "0005"]).
Definition page2 : Frame :=
  lqi_response 5 12 (map entry ["0006"; "0007"; "0008"; "0009"; "000a"]).
Definition page3 : Frame :=
  lqi_response 10 12 (map entry ["000b"; "000c"]).

(** ** More readings of traces *)

(** The [paramId] of every parameter request written to the port, in
    order. *)
Definition read_requests (events : list Event) : list (option PARAM_ID) :=
  omap (fun e => match e with
                 | Sent (DeconzFrame READ_PARAMETER p) => Some p
                 | _ => None
                 end) events.

(** The answers to the two pending signals (lines 162-164 and 169-171). *)
Definition is_pending_answer (e : Event) : bool :=
  match e with
  | Sent (DeconzFrame APS_DATA_CONFIRM _) => true
  | Sent (DeconzFrame APS_DATA_INDICATION _) => true
  | _ => false
  end.

(** The lines [dumpParameters] logs for the descriptors [ps]. *)
Definition dump_lines (fieldName : PARAM_ID -> string) (ps : list PARAM_ID)
    (this : DeconzTest) : list Event :=
  map (fun p => LogParameter p (get_field (fieldName p) this)) ps.

(** The descriptors ahead of the first [SCAN_CHANNELS]. *)
Fixpoint before_scan_channels (ps : list PARAM_ID) : list PARAM_ID :=
  match ps with
  | [] => []
  | p :: rest =>
      if decide (p = SCAN_CHANNELS) then [] else p :: before_scan_channels rest
  end.

(** The frames the script ever builds: a read of a listed parameter, the
    two pending answers, and Management-LQI requests to the coordinator. *)
Definition well_shaped (PARAM : list PARAM_ID) (f : OutFrame) : Prop :=
  match f with
  | DeconzFrame READ_PARAMETER (Some p) => p ∈ PARAM
  | DeconzFrame APS_DATA_CONFIRM None => True
  | DeconzFrame APS_DATA_INDICATION None => True
  | DeconzFrame _ _ => False
  | ZdoFrame _ _ destination16 cluster _ =>
      destination16 = "0000" /\ cluster = MANAGEMENT_LQI_REQUEST
  end.

(** ** The raw-frame listener *)

Section RawFrames.

Variable PARAM : list PARAM_ID.
Variable fieldName : PARAM_ID -> string.

(** What the codec emits with [raw_frames] set, and its two methods
    [canParse] and [parseFrame] (the latter may throw). *)
Variable RawFrame : Type.
Variable canParse : RawFrame -> bool.
Variable parseFrame : RawFrame -> completion Frame.

(** The listener of lines 67-85.  The console output is left out. *)
Definition onRawFrame (rawFrame : RawFrame) : M unit :=
  if canParse rawFrame
  then match parseFrame rawFrame with
       | Normal frame => fun this =>
           let o := handleFrame PARAM fieldName frame this in
           mkOutcome (Normal tt) (final o) (trace o)
       | Thrown => ret tt
       end
  else ret tt.

Fixpoint deliverRaw (rawFrames : list RawFrame) : M unit :=
  match rawFrames with
  | [] => ret tt
  | rawFrame :: rest => onRawFrame rawFrame ;;; deliverRaw rest
  end.

(** The frame a raw frame stands for, when there is one. *)
Definition decoded (rawFrame : RawFrame) : option Frame :=
  if canParse rawFrame
  then match parseFrame rawFrame with
       | Normal frame => Some frame
       | Thrown => None
       end
  else None.

End RawFrames.

(** ** Choosing the port *)

(** An entry of [SerialPort.list]; a property that is absent is [None]. *)
Record Port : Type := mkPort {
  comName : string;
  vendorId : option string;
  productId : option string;
  manufacturer : option string;
}.

#[global] Instance Port_eq_dec : EqDecision Port.
Proof. solve_decision. Defined.

(** Lines 257-261. *)
Definition isConBeePort (port : Port) : bool :=
  bool_decide (vendorId port = Some "0403")
  && (bool_decide (productId port = Some "6015")
      || bool_decide (productId port = Some "6001"))
  && bool_decide (manufacturer port = Some "FTDI").

(** How the callback of lines 273-291 ends. *)
Inductive Selection : Type :=
  | ListError
  | NoConBee
  | TooManyConBee
  | Opened (port : Port).

(** Lines 273-291; [error] is whether [SerialPort.list] reports one.  Where
    [conBeePorts[0]] is read the list has one element. *)
Definition choosePort (error : bool) (ports : list Port) : Selection :=
  if error then ListError
  else
    let conBeePorts := List.filter isConBeePort ports in
    if decide (length conBeePorts = 0%nat) then NoConBee
    else if decide (1 < length conBeePorts)%nat then TooManyConBee
    else match conBeePorts !! 0%nat with
         | Some port => Opened port
         | None => NoConBee
         end.

(** * Proofs *)

Section Frames.

Context {B : Type} (proj : DeconzTest -> B) (P : Event -> Prop).

Lemma preserves_ret {A} (a : A) : preserves proj (ret a).
Proof. intros this. reflexivity. Qed.

Lemma preserves_throw {A} : preserves proj (@throw A).
Proof. intros this. reflexivity. Qed.

Lemma preserves_get {A} (p : DeconzTest -> A) : preserves proj (get p).
Proof. intros this. reflexivity. Qed.

Lemma preserves_emit e : preserves proj (emit e).
Proof. intros this. reflexivity. Qed.

Lemma preserves_modify f :
  (forall this, proj (f this) = proj this) -> preserves proj (modify f).
Proof. intros Hf this. apply Hf. Qed.

Lemma preserves_bind {A C} (m : M A) (k : A -> M C) :
  preserves proj m -> (forall a, preserves proj (k a)) ->
  preserves proj (bind m k).
Proof.
  intros Hm Hk this. unfold bind.
  destruct (result (m this)) as [a|] eqn:E; simpl.
  - rewrite Hk. apply Hm.
  - apply Hm.
Qed.

Lemma emits_only_ret {A} (a : A) : emits_only P (ret a).
Proof. intros this. constructor. Qed.

Lemma emits_only_throw {A} : emits_only P (@throw A).
Proof. intros this. constructor. Qed.

Lemma emits_only_get {A} (p : DeconzTest -> A) : emits_only P (get p).
Proof. intros this. constructor. Qed.

Lemma emits_only_modify f : emits_only P (modify f).
Proof. intros this. constructor. Qed.

Lemma emits_only_emit e : P e -> emits_only P (emit e).
Proof. intros He this. simpl. repeat constructor. exact He. Qed.

Lemma emits_only_bind {A C} (m : M A) (k : A -> M C) :
  emits_only P m -> (forall a, emits_only P (k a)) ->
  emits_only P (bind m k).
Proof.
  intros Hm Hk this. unfold bind.
  destruct (result (m this)) as [a|] eqn:E; simpl.
  - apply Forall_app. split; [apply Hm | apply Hk].
  - apply Hm.
Qed.

End Frames.

(** Walks a method body along its binds and branches. *)
Ltac frame_step :=
  first
    [ apply preserves_bind; [ | intros ? ]
    | apply preserves_ret
    | apply preserves_throw
    | apply preserves_get
    | apply preserves_emit
    | apply preserves_modify; intros ?; reflexivity
    | apply emits_only_bind; [ | intros ? ]
    | apply emits_only_ret
    | apply emits_only_throw
    | apply emits_only_get
    | apply emits_only_modify
    | apply emits_only_emit; simpl; solve [ auto | congruence ]
    | case_decide
    | case_match ].

Ltac frame_walk := repeat frame_step.

Section MethodFrames.

Variable PARAM : list PARAM_ID.
Variable fieldName : PARAM_ID -> string.

Lemma dumpParametersOf_preserves {B} (proj : DeconzTest -> B) ps :
  preserves proj (dumpParametersOf fieldName ps).
Proof. induction ps as [|p ps IH]; simpl; frame_walk; exact IH. Qed.

Lemma registerNeighbors_preserves {B} (proj : DeconzTest -> B) frame n idx :
  (forall nb this, proj (register nb this) = proj this) ->
  preserves proj (registerNeighbors frame n idx).
Proof.
  intros Hreg. revert idx.
  induction n as [|n IH]; intros idx; simpl; frame_walk.
  - apply preserves_modify. apply Hreg.
  - apply IH.
Qed.

Lemma registerNeighbors_silent frame n idx this :
  trace (registerNeighbors frame n idx this) = [].
Proof.
  revert idx this. induction n as [|n IH]; intros idx this; simpl.
  - reflexivity.
  - destruct (index (neighbors frame) idx) as [nb|]; [|reflexivity].
    unfold bind; simpl.
    specialize (IH (idx + 1) (register nb this)).
    destruct (registerNeighbors frame n (idx + 1) (register nb this))
      as [[]]; simpl in *; exact IH.
Qed.

End MethodFrames.

(** ** Array reads *)

Lemma index_is_Some {A} (a : list A) (i : Z) :
  is_Some (index a i) <-> 0 <= i < Z.of_nat (length a).
Proof.
  unfold index. case_decide.
  - rewrite lookup_lt_is_Some. lia.
  - split; [intros [x Hx]; discriminate | lia].
Qed.

Lemma index_None {A} (a : list A) (i : Z) :
  index a i = None <-> ~ (0 <= i < Z.of_nat (length a)).
Proof. rewrite <- index_is_Some, eq_None_not_Some. reflexivity. Qed.


(** ** The three parts of [handleFrame], one by one *)

Section Steps.

Variable PARAM : list PARAM_ID.
Variable fieldName : PARAM_ID -> string.

Local Abbreviation handleFrame := (handleFrame PARAM fieldName).
Local Abbreviation dispatch := (dispatch PARAM fieldName).
Local Abbreviation PARAM_length := (PARAM_length PARAM).

Lemma clearOnApsData_normal frame this :
  result (clearOnApsData frame this) = Normal tt
  /\ trace (clearOnApsData frame this) = [].
Proof. unfold clearOnApsData. case_decide; split; reflexivity. Qed.

Lemma pollPending_normal frame this :
  result (pollPending frame this) = Normal tt.
Proof.
  unfold pollPending.
  destruct (own_truthy (dataConfirm frame)); [reflexivity|].
  unfold bind, get; simpl.
  destruct (deviceStateUpdateInProgress this); simpl; [reflexivity|].
  destruct (own_truthy (dataIndication frame)); reflexivity.
Qed.

Lemma handleFrame_parts frame this :
  handleFrame frame this =
  let this1 := final (clearOnApsData frame this) in
  let o := dispatch frame (polled frame this) in
  mkOutcome (result o) (final o) (trace (pollPending frame this1) ++ trace o).
Proof.
  unfold handleFrame, polled.
  destruct (clearOnApsData_normal frame this) as [Hr Ht].
  unfold bind. rewrite Hr. simpl. rewrite Ht, pollPending_normal.
  reflexivity.
Qed.

Lemma clearOnApsData_preserves {B} (proj : DeconzTest -> B) frame :
  (forall b this, proj (set_deviceStateUpdateInProgress b this) = proj this) ->
  preserves proj (clearOnApsData frame).
Proof.
  intros H. unfold clearOnApsData. frame_walk.
  apply preserves_modify, H.
Qed.

Lemma pollPending_preserves {B} (proj : DeconzTest -> B) frame :
  (forall b this, proj (set_deviceStateUpdateInProgress b this) = proj this) ->
  preserves proj (pollPending frame).
Proof.
  intros H. unfold pollPending. frame_walk; apply preserves_modify, H.
Qed.

Lemma polled_preserves {B} (proj : DeconzTest -> B) frame this :
  (forall b this, proj (set_deviceStateUpdateInProgress b this) = proj this) ->
  proj (polled frame this) = proj this.
Proof.
  intros H. unfold polled.
  rewrite pollPending_preserves, clearOnApsData_preserves; auto.
Qed.

Lemma managementLqi_preserves {B} (proj : DeconzTest -> B) start :
  preserves proj (managementLqi start).
Proof. unfold managementLqi, sendFrame. frame_walk. Qed.

Lemma readParameter_preserves {B} (proj : DeconzTest -> B) idx :
  preserves proj (readParameter PARAM idx).
Proof.
  unfold readParameter, sendFrame. case_decide.
  - apply managementLqi_preserves.
  - apply preserves_emit.
Qed.

Lemma handleManagementLqiResponse_preserves {B} (proj : DeconzTest -> B) frame :
  (forall nb this, proj (register nb this) = proj this) ->
  preserves proj (handleManagementLqiResponse frame).
Proof.
  intros H. unfold handleManagementLqiResponse, dumpNodes, demoDone.
  apply preserves_bind; [apply registerNeighbors_preserves, H | intros _].
  case_decide; [apply managementLqi_preserves | frame_walk].
Qed.

(** After the assignments of lines 179-180, nothing in the branch writes
    to the object. *)
Lemma completion_preserves {B} (proj : DeconzTest -> B) idx :
  preserves proj
    (if decide (idx + 1 = PARAM_length)
     then dumpParameters PARAM fieldName ;;;
          macAddress <~ get (get_field "macAddress") ;;
          sendFrame (ZdoFrame None macAddress "0000"
                              MANAGEMENT_LQI_REQUEST 0)
     else readParameter PARAM (idx + 1)).
Proof.
  unfold sendFrame, dumpParameters. case_decide.
  - apply preserves_bind; [apply dumpParametersOf_preserves | intros _].
    frame_walk.
  - apply readParameter_preserves.
Qed.

Lemma dispatch_flag frame :
  preserves deviceStateUpdateInProgress (dispatch frame).
Proof.
  unfold dispatch. repeat case_decide; try apply preserves_ret.
  - apply preserves_bind; [apply preserves_get | intros idx].
    case_decide; [|apply preserves_ret].
    case_match; [|apply preserves_throw].
    do 2 (apply preserves_bind;
          [apply preserves_modify; reflexivity | intros _]).
    apply completion_preserves.
  - apply handleManagementLqiResponse_preserves. reflexivity.
Qed.

(** The cursor moves in one case only: a parameter response while the
    cursor points into [PARAM]. *)
Lemma dispatch_paramIdx frame this :
  paramIdx (final (dispatch frame this)) =
  if decide (type frame = READ_PARAMETER
             /\ 0 <= paramIdx this < PARAM_length)
  then paramIdx this + 1
  else paramIdx this.
Proof.
  destruct (decide (type frame = READ_PARAMETER
                    /\ 0 <= paramIdx this < PARAM_length)) as [[Ht Hin]|Hno];
    unfold dispatch.
  - rewrite decide_True by exact Ht.
    unfold bind at 1; simpl.
    rewrite decide_True by lia.
    apply index_is_Some in Hin as [p Hp]. rewrite Hp.
    unfold bind at 1 2; simpl.
    rewrite completion_preserves. reflexivity.
  - destruct (decide (type frame = READ_PARAMETER)) as [Ht|Ht].
    + unfold bind at 1; simpl.
      destruct (decide (paramIdx this < PARAM_length)) as [Hlt|Hlt];
        [|reflexivity].
      destruct (index PARAM (paramIdx this)) as [p|] eqn:Hp; [|reflexivity].
      exfalso. apply Hno. split; [exact Ht|].
      apply index_is_Some. eauto.
    + destruct (decide (type frame = APS_DATA_INDICATION)); [|reflexivity].
      destruct (decide (clusterId frame = MANAGEMENT_LQI_RESPONSE));
        [|reflexivity].
      apply handleManagementLqiResponse_preserves. reflexivity.
Qed.

Lemma handleFrame_paramIdx frame this :
  paramIdx (final (handleFrame frame this)) =
  if decide (type frame = READ_PARAMETER
             /\ 0 <= paramIdx this < PARAM_length)
  then paramIdx this + 1
  else paramIdx this.
Proof.
  rewrite handleFrame_parts. simpl.
  rewrite dispatch_paramIdx, polled_preserves by reflexivity.
  reflexivity.
Qed.

End Steps.

(** ** What [dispatch] can write *)

Lemma filter_none {A} (f : A -> bool) (l : list A) :
  Forall (fun x => f x = false) l -> List.filter f l = [].
Proof.
  induction 1 as [|x l Hx _ IH]; simpl; [reflexivity|].
  rewrite Hx. exact IH.
Qed.

Section Writes.

Variable PARAM : list PARAM_ID.
Variable fieldName : PARAM_ID -> string.
Variable P : Event -> Prop.

Hypothesis P_log : forall p v, P (LogParameter p v).
Hypothesis P_zdo :
  forall ty d64 d16 c s, P (Sent (ZdoFrame (Some ty) d64 d16 c s)).
Hypothesis P_first :
  forall d64 d16 c s, P (Sent (ZdoFrame None d64 d16 c s)).
Hypothesis P_read : forall p, P (Sent (DeconzFrame READ_PARAMETER p)).
Hypothesis P_nodes : forall m, P (LogNodes m).
Hypothesis P_closed : P PortClosed.

Lemma dumpParametersOf_emits ps :
  emits_only P (dumpParametersOf fieldName ps).
Proof. induction ps as [|p ps IH]; simpl; frame_walk; exact IH. Qed.

Lemma registerNeighbors_emits frame n idx :
  emits_only P (registerNeighbors frame n idx).
Proof. intros this. rewrite registerNeighbors_silent. constructor. Qed.

Lemma managementLqi_emits start : emits_only P (managementLqi start).
Proof. unfold managementLqi, sendFrame. frame_walk. Qed.

Lemma readParameter_emits idx : emits_only P (readParameter PARAM idx).
Proof.
  unfold readParameter, sendFrame. case_decide.
  - apply managementLqi_emits.
  - apply emits_only_emit, P_read.
Qed.

Lemma handleManagementLqiResponse_emits frame :
  emits_only P (handleManagementLqiResponse frame).
Proof.
  unfold handleManagementLqiResponse, dumpNodes, demoDone.
  apply emits_only_bind; [apply registerNeighbors_emits | intros _].
  case_decide; [apply managementLqi_emits | frame_walk].
Qed.

Lemma dispatch_emits frame : emits_only P (dispatch PARAM fieldName frame).
Proof.
  unfold dispatch. repeat case_decide; try apply emits_only_ret.
  - apply emits_only_bind; [apply emits_only_get | intros idx].
    case_decide; [|apply emits_only_ret].
    case_match; [|apply emits_only_throw].
    do 2 (apply emits_only_bind; [apply emits_only_modify | intros _]).
    case_decide.
    + apply emits_only_bind; [apply dumpParametersOf_emits | intros _].
      unfold sendFrame. frame_walk.
    + apply readParameter_emits.
  - apply handleManagementLqiResponse_emits.
Qed.

End Writes.

Section Pending.

Variable PARAM : list PARAM_ID.
Variable fieldName : PARAM_ID -> string.

Lemma pollPending_confirm frame this :
  own_truthy (dataConfirm frame) = true ->
  pollPending frame this =
  mkOutcome (Normal tt) (set_deviceStateUpdateInProgress true this)
            [Sent confirm_request].
Proof. intros H. unfold pollPending. rewrite H. reflexivity. Qed.

Lemma pollPending_indication frame this :
  own_truthy (dataConfirm frame) = false ->
  own_truthy (dataIndication frame) = true ->
  deviceStateUpdateInProgress this = false ->
  pollPending frame this =
  mkOutcome (Normal tt) (set_deviceStateUpdateInProgress true this)
            [Sent indication_request].
Proof.
  intros Hc Hi Hf. unfold pollPending. rewrite Hc.
  unfold bind, get; simpl. rewrite Hf, Hi. reflexivity.
Qed.

Lemma pollPending_idle frame this :
  own_truthy (dataConfirm frame) = false ->
  own_truthy (dataIndication frame) = false ->
  pollPending frame this = mkOutcome (Normal tt) this [].
Proof.
  intros Hc Hi. unfold pollPending. rewrite Hc.
  unfold bind, get; simpl. rewrite Hi.
  destruct (deviceStateUpdateInProgress this); reflexivity.
Qed.

Lemma dispatch_no_confirm frame this :
  List.filter is_confirm_request
              (trace (dispatch PARAM fieldName frame this)) = [].
Proof.
  apply filter_none.
  apply (dispatch_emits PARAM fieldName
           (fun e => is_confirm_request e = false)); reflexivity.
Qed.

End Pending.

(** ** The pending signals *)

(** C1, amended.  A parameter response that carries the pending-confirm
    signal has the confirm handled first: the flag is set and the
    confirmation request is the first thing written.  The frame is then
    still taken as a parameter response: the cursor moves on by one when it
    points into [PARAM], and stays otherwise. *)
Theorem confirm_then_parameter_response
    (PARAM : list PARAM_ID) (fieldName : PARAM_ID -> string)
    (this : DeconzTest) (frame : Frame) :
  own_truthy (dataConfirm frame) = true ->
  type frame = READ_PARAMETER ->
  let o := handleFrame PARAM fieldName frame this in
  deviceStateUpdateInProgress (final o) = true
  /\ (exists rest, trace o = Sent confirm_request :: rest)
  /\ paramIdx (final o) =
     if decide (0 <= paramIdx this < PARAM_length PARAM)
     then paramIdx this + 1
     else paramIdx this.
Proof.
  intros Hc Ht o. subst o. split; [|split].
  - rewrite handleFrame_parts. simpl.
    rewrite dispatch_flag. unfold polled.
    rewrite pollPending_confirm by exact Hc. reflexivity.
  - rewrite handleFrame_parts. simpl.
    rewrite pollPending_confirm by exact Hc. simpl. eauto.
  - rewrite handleFrame_paramIdx.
    repeat case_decide; try reflexivity; tauto.
Qed.

Lemma confirm_then_parameter_response_witness :
  let frame := parameter_response true false "macAddress" (VNumber 1) in
  let o := handleFrame PARAM fieldName frame opened in
  (own_truthy (dataConfirm frame) = true /\ type frame = READ_PARAMETER)
  /\ deviceStateUpdateInProgress (final o) = true
  /\ (exists rest, trace o = Sent confirm_request :: rest)
  /\ paramIdx (final o) = 1.
Proof.
  split; [split; reflexivity|].
  exact (confirm_then_parameter_response PARAM fieldName opened
           (parameter_response true false "macAddress" (VNumber 1))
           eq_refl eq_refl).
Defined.

(** C1 as stated fails: the first parameter response of a run, when it
    carries the pending-confirm signal, moves the cursor from 0 to 1. *)
Lemma confirmation_priority_counterexample :
  ~ confirmation_priority PARAM fieldName opened
      (parameter_response true false "macAddress" (VNumber 1)).
Proof.
  intros H. destruct (H eq_refl eq_refl) as (_ & _ & Hidx).
  vm_compute in Hidx. discriminate.
Qed.

(** C2, amended.  A frame with the pending-confirm signal sets the flag and
    gets exactly one confirmation request written, first of all that is
    written, whether or not a confirmation was in flight when it came. *)
Theorem confirm_sent_whenever_pending
    (PARAM : list PARAM_ID) (fieldName : PARAM_ID -> string)
    (this : DeconzTest) (frame : Frame) :
  own_truthy (dataConfirm frame) = true ->
  let o := handleFrame PARAM fieldName frame this in
  deviceStateUpdateInProgress (final o) = true
  /\ (exists rest, trace o = Sent confirm_request :: rest)
  /\ List.filter is_confirm_request (trace o) = [Sent confirm_request].
Proof.
  intros Hc o. subst o. rewrite handleFrame_parts. simpl.
  rewrite dispatch_flag. unfold polled.
  rewrite !pollPending_confirm by exact Hc. simpl.
  rewrite dispatch_no_confirm. eauto.
Qed.

Lemma confirm_sent_whenever_pending_witness :
  let frame := status_frame OTHER_FRAME_TYPE true false in
  let o := handleFrame PARAM fieldName frame confirming in
  (own_truthy (dataConfirm frame) = true
   /\ deviceStateUpdateInProgress confirming = true)
  /\ deviceStateUpdateInProgress (final o) = true
  /\ (exists rest, trace o = Sent confirm_request :: rest)
  /\ List.filter is_confirm_request (trace o) = [Sent confirm_request].
Proof.
  split; [split; reflexivity|].
  exact (confirm_sent_whenever_pending PARAM fieldName confirming
           (status_frame OTHER_FRAME_TYPE true false) eq_refl).
Defined.

(** C2 as stated fails: with a confirmation in flight, a second frame with
    the pending-confirm signal gets a confirmation request all the same. *)
Lemma confirmation_gated_counterexample :
  ~ confirmation_gated PARAM fieldName confirming
      (status_frame OTHER_FRAME_TYPE true false).
Proof.
  intros H. specialize (H eq_refl). simpl in H.
  apply H. vm_compute. left.
Qed.

(** C9, amended.  A frame of type [APS_DATA_INDICATION] or
    [APS_DATA_CONFIRM] has the flag cleared before the pending checks run,
    which therefore see it clear.  When such a frame carries the
    pending-indication signal and not the pending-confirm signal, the
    indication request is the first thing written and the flag is set
    again, whatever the flag was before. *)
Theorem data_frame_refetches_indication
    (PARAM : list PARAM_ID) (fieldName : PARAM_ID -> string)
    (this : DeconzTest) (frame : Frame) :
  type frame = APS_DATA_INDICATION \/ type frame = APS_DATA_CONFIRM ->
  let o := handleFrame PARAM fieldName frame this in
  let cleared := set_deviceStateUpdateInProgress false this in
  clearOnApsData frame this = mkOutcome (Normal tt) cleared []
  /\ o = (pollPending frame ;;; dispatch PARAM fieldName frame) cleared
  /\ (own_truthy (dataConfirm frame) = false ->
      own_truthy (dataIndication frame) = true ->
      deviceStateUpdateInProgress (final o) = true
      /\ exists rest, trace o = Sent indication_request :: rest).
Proof.
  intros Ht o cleared.
  assert (clearOnApsData frame this = mkOutcome (Normal tt) cleared [])
    as Hclear by (unfold clearOnApsData; rewrite decide_True by exact Ht;
                  reflexivity).
  split; [exact Hclear|]. split.
  - subst o. unfold handleFrame. unfold bind at 1. rewrite Hclear. simpl.
    destruct ((pollPending frame;;; dispatch PARAM fieldName frame) cleared).
    reflexivity.
  - intros Hc Hi. subst o. rewrite handleFrame_parts. simpl.
    rewrite dispatch_flag. unfold polled. rewrite Hclear. simpl.
    rewrite !pollPending_indication by (exact Hc || exact Hi || reflexivity).
    simpl. eauto.
Qed.

Lemma data_frame_refetches_indication_witness :
  let frame := status_frame APS_DATA_CONFIRM false true in
  let o := handleFrame PARAM fieldName frame confirming in
  (type frame = APS_DATA_INDICATION \/ type frame = APS_DATA_CONFIRM)
  /\ deviceStateUpdateInProgress confirming = true
  /\ deviceStateUpdateInProgress (final o) = true
  /\ exists rest, trace o = Sent indication_request :: rest.
Proof.
  split; [right; reflexivity|]. split; [reflexivity|].
  exact (proj2 (proj2 (data_frame_refetches_indication PARAM fieldName
           confirming (status_frame APS_DATA_CONFIRM false true)
           (or_intror eq_refl))) eq_refl eq_refl).
Defined.

(** C9 as stated fails: a data-confirm frame with both pending signals gets
    the confirmation request and no indication request. *)
Lemma indication_refetched_counterexample :
  ~ indication_refetched PARAM fieldName confirming
      (status_frame APS_DATA_CONFIRM true true).
Proof.
  intros H. specialize (H (or_intror eq_refl) eq_refl).
  vm_compute in H.
  apply list_elem_of_singleton in H. discriminate.
Qed.

(** ** Frames that [dispatch] passes over, and whole runs *)

Section Runs.

Variable PARAM : list PARAM_ID.
Variable fieldName : PARAM_ID -> string.

Local Abbreviation handleFrame := (handleFrame PARAM fieldName).
Local Abbreviation dispatch := (dispatch PARAM fieldName).
Local Abbreviation PARAM_length := (PARAM_length PARAM).
Local Abbreviation run := (run PARAM fieldName).
Local Abbreviation deliver := (deliver PARAM fieldName).

Lemma dispatch_past_end frame this :
  type frame = READ_PARAMETER ->
  PARAM_length <= paramIdx this ->
  dispatch frame this = mkOutcome (Normal tt) this [].
Proof.
  intros Ht Hge. unfold dispatch. rewrite decide_True by exact Ht.
  unfold bind; simpl. rewrite decide_False by lia. reflexivity.
Qed.

Lemma dispatch_other frame this :
  type frame <> READ_PARAMETER ->
  ~ (type frame = APS_DATA_INDICATION
     /\ clusterId frame = MANAGEMENT_LQI_RESPONSE) ->
  dispatch frame this = mkOutcome (Normal tt) this [].
Proof.
  intros Ht Hlqi. unfold dispatch. rewrite decide_False by exact Ht.
  repeat case_decide; try reflexivity. tauto.
Qed.

Lemma pollPending_emits (P : Event -> Prop) frame :
  P (Sent confirm_request) -> P (Sent indication_request) ->
  emits_only P (pollPending frame).
Proof.
  intros Hc Hi. unfold pollPending, sendFrame.
  frame_walk; apply emits_only_emit; assumption.
Qed.

Lemma readParameters_start this :
  result (readParameters PARAM this) = Normal tt
  /\ final (readParameters PARAM this) = set_paramIdx 0 this.
Proof.
  unfold readParameters, readParameter, managementLqi, sendFrame.
  unfold bind; simpl. case_decide; split; reflexivity.
Qed.

(** A property of the object and of all that was written so far, kept by
    every frame, holds along every run. *)
Lemma deliver_invariant (I : DeconzTest -> list Event -> Prop) :
  (forall frame this tr,
      I this tr ->
      I (final (handleFrame frame this))
        (tr ++ trace (handleFrame frame this))) ->
  forall frames this tr,
    I this tr ->
    I (final (deliver frames this)) (tr ++ trace (deliver frames this)).
Proof.
  intros Hstep frames.
  induction frames as [|frame rest IH]; intros this tr HI; simpl.
  - rewrite app_nil_r. exact HI.
  - unfold bind, onFrame; simpl. rewrite (assoc_L (++)).
    apply IH, Hstep, HI.
Qed.

Lemma run_parts frames :
  run frames =
  let o0 := readParameters PARAM constructed in
  let o := deliver frames (final o0) in
  mkOutcome (result o) (final o) (trace o0 ++ trace o).
Proof.
  unfold run. unfold bind at 1.
  rewrite (proj1 (readParameters_start constructed)). reflexivity.
Qed.

Lemma run_invariant (I : DeconzTest -> list Event -> Prop) :
  I (final (readParameters PARAM constructed))
    (trace (readParameters PARAM constructed)) ->
  (forall frame this tr,
      I this tr ->
      I (final (handleFrame frame this))
        (tr ++ trace (handleFrame frame this))) ->
  forall frames, I (final (run frames)) (trace (run frames)).
Proof.
  intros H0 Hstep frames. rewrite run_parts. cbv zeta. cbn [final trace].
  apply deliver_invariant; assumption.
Qed.

Lemma run_cursor_bounds frames :
  0 <= paramIdx (final (run frames)) <= PARAM_length.
Proof.
  apply (run_invariant (fun this _ => 0 <= paramIdx this <= PARAM_length)).
  - rewrite (proj2 (readParameters_start constructed)). simpl.
    unfold PARAM_length. lia.
  - intros frame this _ Hb. rewrite handleFrame_paramIdx.
    case_decide; lia.
Qed.

(** The request of lines 183-188 is written only by the response that
    moves the cursor onto [PARAM.length]. *)
Lemma dispatch_first_requests frame this :
  (length (List.filter is_first_lqi_request (trace (dispatch frame this)))
   <= if decide (type frame = READ_PARAMETER
                 /\ (paramIdx this + 1 = PARAM_length)%Z)
      then 1 else 0)%nat.
Proof.
  pose (Q := fun e => is_first_lqi_request e = false).
  assert (forall (m : M unit) this',
             emits_only Q m ->
             length (List.filter is_first_lqi_request (trace (m this'))) = 0%nat)
    as Hquiet.
  { intros m this' Hm. rewrite filter_none; [reflexivity | apply Hm]. }
  unfold dispatch.
  destruct (decide (type frame = READ_PARAMETER)) as [Ht|Ht].
  - unfold bind at 1; simpl.
    destruct (decide (paramIdx this < PARAM_length)); [|case_decide; simpl; lia].
    destruct (index PARAM (paramIdx this)) as [p|]; [|case_decide; simpl; lia].
    unfold bind at 1 2; simpl.
    destruct (decide (paramIdx this + 1 = PARAM_length)) as [Hend|Hend].
    + destruct (decide (type frame = READ_PARAMETER /\ _)) as [_|Hno];
        [|exfalso; apply Hno; split; assumption].
      unfold bind at 1.
      match goal with |- context [dumpParameters PARAM fieldName ?s] =>
        pose proof (Hquiet (dumpParameters PARAM fieldName) s) as Hd
      end.
      unfold dumpParameters in *.
      match type of Hd with ?A -> _ =>
        assert A as HA
          by (apply dumpParametersOf_emits; intros; reflexivity)
      end.
      specialize (Hd HA).
      apply length_zero_iff_nil in Hd.
      destruct (result (dumpParametersOf _ _ _)); simpl.
      * rewrite List.filter_app, Hd. simpl. lia.
      * rewrite Hd. simpl. lia.
    + destruct (decide (type frame = READ_PARAMETER /\ _)) as [[_ ?]|_];
        [contradiction|].
      rewrite Hquiet; [lia|].
      apply readParameter_emits; intros; reflexivity.
  - destruct (decide (type frame = READ_PARAMETER /\ _)) as [[? _]|_];
      [contradiction|].
    rewrite Hquiet; [lia|].
    repeat case_decide; try apply emits_only_ret.
    apply handleManagementLqiResponse_emits; intros; reflexivity.
Qed.

Lemma handleFrame_first_requests frame this :
  (length (List.filter is_first_lqi_request (trace (handleFrame frame this)))
   <= if decide (type frame = READ_PARAMETER
                 /\ (paramIdx this + 1 = PARAM_length)%Z)
      then 1 else 0)%nat.
Proof.
  rewrite handleFrame_parts. simpl.
  rewrite List.filter_app, length_app.
  rewrite (filter_none _ (trace (pollPending _ _)))
    by (apply pollPending_emits; reflexivity).
  simpl.
  pose proof (dispatch_first_requests frame (polled frame this)) as H.
  rewrite (polled_preserves paramIdx) in H by reflexivity. exact H.
Qed.

Lemma run_first_request_once frames :
  (length (List.filter is_first_lqi_request (trace (run frames))) <= 1)%nat.
Proof.
  pose (I := fun this tr =>
    0 <= paramIdx this <= PARAM_length
    /\ (length (List.filter is_first_lqi_request tr) <= 1)%nat
    /\ (paramIdx this < PARAM_length ->
        length (List.filter is_first_lqi_request tr) = 0%nat)).
  enough (I (final (run frames)) (trace (run frames))) as H by apply H.
  apply run_invariant; unfold I.
  - rewrite (proj2 (readParameters_start constructed)).
    assert (List.filter is_first_lqi_request
              (trace (readParameters PARAM constructed)) = []) as ->.
    { unfold readParameters, readParameter, managementLqi, sendFrame.
      unfold bind; simpl. case_decide; reflexivity. }
    simpl. unfold PARAM_length. lia.
  - intros frame this tr (Hb & Hle & Hz).
    rewrite handleFrame_paramIdx, List.filter_app, length_app.
    pose proof (handleFrame_first_requests frame this) as Hstep.
    destruct (decide (type frame = READ_PARAMETER)) as [Ht|Ht];
      repeat case_decide;
      repeat match goal with
             | H : _ /\ _ |- _ => destruct H
             | H : ~ (type frame = _ /\ _) |- _ =>
                 apply not_and_l in H; destruct H
             end;
      try contradiction; lia.
Qed.

End Runs.

(** C5.  Along every run, whatever the frames: the cursor lies between 0
    and [PARAM.length] after every frame, the next frame never moves it
    back, and it moves it on by exactly one when that frame is an accepted
    parameter response (a parameter response while the cursor points into
    [PARAM]) and leaves it otherwise. *)
Theorem cursor_monotone
    (PARAM : list PARAM_ID) (fieldName : PARAM_ID -> string)
    (frames : list Frame) (frame : Frame) :
  let this := final (run PARAM fieldName frames) in
  let this' := final (onFrame PARAM fieldName frame this) in
  0 <= paramIdx this <= PARAM_length PARAM
  /\ 0 <= paramIdx this' <= PARAM_length PARAM
  /\ paramIdx this <= paramIdx this'
  /\ paramIdx this' =
     if decide (accepted PARAM this frame)
     then paramIdx this + 1
     else paramIdx this.
Proof.
  intros this this'.
  pose proof (run_cursor_bounds PARAM fieldName frames) as Hb.
  fold this in Hb.
  assert (paramIdx this' =
          if decide (accepted PARAM this frame)
          then paramIdx this + 1 else paramIdx this) as Hstep.
  { subst this'. unfold onFrame. cbn [final].
    rewrite handleFrame_paramIdx. unfold accepted.
    destruct (decide (type frame = READ_PARAMETER)) as [Ht|Ht];
      repeat case_decide;
      repeat match goal with
             | H : _ /\ _ |- _ => destruct H
             | H : ~ (type frame = _ /\ _) |- _ =>
                 apply not_and_l in H; destruct H
             end;
      try contradiction; lia. }
  rewrite Hstep. unfold accepted in *.
  case_decide; repeat split; try lia.
Qed.

(** C8.  With no descriptors, [readParameters] writes the neighbor-table
    request for [startIndex] 0 and nothing else, no parameter request among
    it, and leaves the cursor at [PARAM.length], which is 0: the parameter
    phase is over at once. *)
Theorem start_without_descriptors (this : DeconzTest) :
  let o := readParameters [] this in
  result o = Normal tt
  /\ final o = set_paramIdx 0 this
  /\ paramIdx (final o) = PARAM_length []
  /\ trace o = [Sent (ZdoFrame (Some APS_DATA_REQUEST)
                               (get_field "macAddress" this) "0000"
                               MANAGEMENT_LQI_REQUEST 0)]
  /\ zdo_starts (trace o) = [0]
  /\ (forall p, Sent (DeconzFrame READ_PARAMETER p) ∉ trace o).
Proof.
  simpl. repeat split; try reflexivity.
  intros p H. apply list_elem_of_singleton in H. discriminate.
Qed.

(** C10.  With the cursor at [PARAM.length], a parameter response returns
    normally and leaves the cursor, the stored parameter values and the
    registry as they are; all it can write are the answers to the two
    pending signals, so no neighbor-table request and no parameter request.
    Over a whole run the request that opens the neighbor-table walk (lines
    183-188) is written at most once. *)
Theorem parameter_response_after_completion
    (PARAM : list PARAM_ID) (fieldName : PARAM_ID -> string)
    (this : DeconzTest) (frame : Frame) :
  paramIdx this = PARAM_length PARAM ->
  type frame = READ_PARAMETER ->
  let o := handleFrame PARAM fieldName frame this in
  result o = Normal tt
  /\ paramIdx (final o) = PARAM_length PARAM
  /\ fields (final o) = fields this
  /\ node16 (final o) = node16 this
  /\ node64 (final o) = node64 this
  /\ Forall (fun e => e = Sent confirm_request \/ e = Sent indication_request)
            (trace o)
  /\ zdo_starts (trace o) = []
  /\ forall frames,
       (length (List.filter is_first_lqi_request
                            (trace (run PARAM fieldName frames))) <= 1)%nat.
Proof.
  intros Hidx Ht o. subst o. rewrite handleFrame_parts. cbv zeta.
  rewrite dispatch_past_end;
    [ | exact Ht | rewrite (polled_preserves paramIdx) by reflexivity; lia ].
  cbn [result final trace]. rewrite app_nil_r.
  rewrite (polled_preserves paramIdx), (polled_preserves fields),
    (polled_preserves node16), (polled_preserves node64) by reflexivity.
  assert (Forall (fun e => e = Sent confirm_request
                           \/ e = Sent indication_request)
                 (trace (pollPending frame (final (clearOnApsData frame this)))))
    as Hpoll by (apply pollPending_emits; auto).
  repeat split; try reflexivity; try assumption.
  - induction Hpoll as [|e tr [->| ->] _ IH]; simpl; auto.
  - apply run_first_request_once.
Qed.

Lemma parameter_response_after_completion_witness :
  let this := set_paramIdx 13 opened in
  let frame := parameter_response false false "macAddress" (VNumber 1) in
  let o := handleFrame PARAM fieldName frame this in
  (paramIdx this = PARAM_length PARAM /\ type frame = READ_PARAMETER)
  /\ paramIdx (final o) = 13
  /\ fields (final o) = fields this
  /\ trace o = [].
Proof.
  split; [split; reflexivity|].
  pose proof (parameter_response_after_completion PARAM fieldName
                (set_paramIdx 13 opened)
                (parameter_response false false "macAddress" (VNumber 1))
                eq_refl eq_refl) as H.
  split; [exact (proj1 (proj2 H))|].
  split; [exact (proj1 (proj2 (proj2 H)))|].
  reflexivity.
Defined.

(** C7, amended.  A frame with neither pending signal that is not a
    parameter response while the cursor points into [PARAM] and not a
    neighbor-table response (handled whenever it comes, not only once the
    parameters are read) returns normally and writes nothing; the object
    is as before, except that a frame of type [APS_DATA_INDICATION] or
    [APS_DATA_CONFIRM] leaves the flag cleared. *)
Theorem unexpected_frame_only_clears_flag
    (PARAM : list PARAM_ID) (fieldName : PARAM_ID -> string)
    (this : DeconzTest) (frame : Frame) :
  own_truthy (dataConfirm frame) = false ->
  own_truthy (dataIndication frame) = false ->
  ~ accepted PARAM this frame ->
  ~ (type frame = APS_DATA_INDICATION
     /\ clusterId frame = MANAGEMENT_LQI_RESPONSE) ->
  handleFrame PARAM fieldName frame this =
  mkOutcome (Normal tt)
            (if decide (type frame = APS_DATA_INDICATION
                        \/ type frame = APS_DATA_CONFIRM)
             then set_deviceStateUpdateInProgress false this
             else this)
            [].
Proof.
  intros Hc Hi Hacc Hlqi. rewrite handleFrame_parts. cbv zeta.
  unfold polled. rewrite !pollPending_idle by assumption.
  cbn [final trace].
  assert (final (clearOnApsData frame this) =
          if decide (type frame = APS_DATA_INDICATION
                     \/ type frame = APS_DATA_CONFIRM)
          then set_deviceStateUpdateInProgress false this else this) as ->
    by (unfold clearOnApsData; case_decide; reflexivity).
  set (this1 := if decide _ then _ else _).
  assert (paramIdx this1 = paramIdx this) as Hidx
    by (subst this1; case_decide; reflexivity).
  destruct (decide (type frame = READ_PARAMETER)) as [Ht|Ht].
  - rewrite dispatch_past_end; [reflexivity | exact Ht |].
    rewrite Hidx. unfold accepted in Hacc.
    destruct (decide (paramIdx this < PARAM_length PARAM)); [|lia].
    exfalso. apply Hacc. split; assumption.
  - rewrite dispatch_other by assumption. reflexivity.
Qed.

Lemma unexpected_frame_only_clears_flag_witness :
  let frame := status_frame APS_DATA_CONFIRM false false in
  (own_truthy (dataConfirm frame) = false
   /\ own_truthy (dataIndication frame) = false
   /\ ~ accepted PARAM confirming frame
   /\ ~ (type frame = APS_DATA_INDICATION
         /\ clusterId frame = MANAGEMENT_LQI_RESPONSE))
  /\ handleFrame PARAM fieldName frame confirming =
     mkOutcome (Normal tt)
               (set_deviceStateUpdateInProgress false confirming) [].
Proof.
  assert (~ accepted PARAM confirming
              (status_frame APS_DATA_CONFIRM false false)) as Hacc
    by (intros [Ht _]; discriminate Ht).
  assert (~ (type (status_frame APS_DATA_CONFIRM false false)
             = APS_DATA_INDICATION
             /\ clusterId (status_frame APS_DATA_CONFIRM false false)
                = MANAGEMENT_LQI_RESPONSE)) as Hlqi
    by (intros [Ht _]; discriminate Ht).
  split; [repeat split; try reflexivity; assumption|].
  exact (unexpected_frame_only_clears_flag PARAM fieldName confirming
           (status_frame APS_DATA_CONFIRM false false)
           eq_refl eq_refl Hacc Hlqi).
Defined.

(** C7 as stated fails: with a confirmation in flight, a data-confirm frame
    that carries no pending signal is not [expected], and handling it
    clears the flag. *)
Lemma idle_tolerance_counterexample :
  ~ idle_tolerance PARAM fieldName confirming
      (status_frame APS_DATA_CONFIRM false false).
Proof.
  intros H. destruct (H eq_refl) as (_ & Hflag & _).
  vm_compute in Hflag. discriminate.
Qed.

(** ** The neighbor-table walk *)

(** The registrations of a list of table entries, first to last. *)
Lemma registerNeighbors_final frame n idx this :
  0 <= idx ->
  final (registerNeighbors frame n idx this) =
  foldl (fun s nb => register nb s) this
        (take n (drop (Z.to_nat idx) (neighbors frame))).
Proof.
  revert idx this. induction n as [|n IH]; intros idx this Hidx; simpl.
  - reflexivity.
  - unfold index. rewrite decide_True by exact Hidx.
    destruct (neighbors frame !! Z.to_nat idx) as [nb|] eqn:Hnb.
    + rewrite (drop_S _ _ _ Hnb). simpl. rewrite IH by lia.
      replace (Z.to_nat (idx + 1)) with (S (Z.to_nat idx)) by lia.
      reflexivity.
    + apply lookup_ge_None in Hnb. rewrite drop_ge by exact Hnb.
      reflexivity.
Qed.

Lemma registerNeighbors_normal frame n idx this :
  0 <= idx ->
  idx + Z.of_nat n <= Z.of_nat (length (neighbors frame)) ->
  result (registerNeighbors frame n idx this) = Normal tt.
Proof.
  revert idx this. induction n as [|n IH]; intros idx this Hidx Hlen; simpl.
  - reflexivity.
  - destruct (index (neighbors frame) idx) as [nb|] eqn:Hnb.
    + unfold bind at 1; simpl. rewrite IH by lia.
      reflexivity.
    + apply index_None in Hnb. lia.
Qed.

Lemma handleManagementLqiResponse_complete frame this :
  numEntriesThisResponse frame <= Z.of_nat (length (neighbors frame)) ->
  let this' :=
    final (registerNeighbors frame (Z.to_nat (numEntriesThisResponse frame))
                             0 this) in
  let nextStartIndex := startIndex frame + numEntriesThisResponse frame in
  handleManagementLqiResponse frame this =
  mkOutcome (Normal tt) this'
    (if decide (nextStartIndex < numEntries frame)
     then [Sent (ZdoFrame (Some APS_DATA_REQUEST)
                          (get_field "macAddress" this) "0000"
                          MANAGEMENT_LQI_REQUEST nextStartIndex)]
     else [LogNodes (node16 this'); PortClosed]).
Proof.
  intros Hlen this' next. unfold handleManagementLqiResponse.
  unfold bind at 1.
  rewrite registerNeighbors_normal by lia.
  rewrite registerNeighbors_silent. fold this'. fold next.
  assert (get_field "macAddress" this' = get_field "macAddress" this) as Hmac.
  { subst this'. unfold get_field.
    rewrite (registerNeighbors_preserves fields) by reflexivity.
    reflexivity. }
  case_decide; cbn; rewrite ?Hmac; reflexivity.
Qed.

(** C4.  A neighbor-table response whose [neighbors] holds the entries it
    announces is handled to the end.  With [nextStartIndex] the response's
    [startIndex] plus the number of entries it returned, the next request
    is written with that [startIndex] exactly when [nextStartIndex] is
    below the total the response reports, and it is the one ZDO request
    written; otherwise no request is written, the nodes are dumped and the
    port is closed. *)
Theorem next_request_follows_entries_returned
    (PARAM : list PARAM_ID) (fieldName : PARAM_ID -> string)
    (this : DeconzTest) (frame : Frame) :
  type frame = APS_DATA_INDICATION ->
  clusterId frame = MANAGEMENT_LQI_RESPONSE ->
  numEntriesThisResponse frame <= Z.of_nat (length (neighbors frame)) ->
  let o := handleFrame PARAM fieldName frame this in
  let pending :=
    trace (pollPending frame (set_deviceStateUpdateInProgress false this)) in
  let nextStartIndex := startIndex frame + numEntriesThisResponse frame in
  result o = Normal tt
  /\ if decide (nextStartIndex < numEntries frame)
     then trace o =
            pending ++ [Sent (ZdoFrame (Some APS_DATA_REQUEST)
                                       (get_field "macAddress" this) "0000"
                                       MANAGEMENT_LQI_REQUEST nextStartIndex)]
          /\ zdo_starts (trace o) = [nextStartIndex]
          /\ PortClosed ∉ trace o
     else trace o = pending ++ [LogNodes (node16 (final o)); PortClosed]
          /\ zdo_starts (trace o) = [].
Proof.
  intros Ht Hc Hlen o pending next.
  assert (final (clearOnApsData frame this) =
          set_deviceStateUpdateInProgress false this) as Hclear
    by (unfold clearOnApsData; rewrite decide_True by auto; reflexivity).
  assert (Forall (fun e => e = Sent confirm_request
                           \/ e = Sent indication_request) pending) as Hpend
    by (apply pollPending_emits; auto).
  assert (zdo_starts pending = [] /\ PortClosed ∉ pending) as [Hz Hnc].
  { clear -Hpend. induction Hpend as [|e tr He _ [IH1 IH2]].
    - split; [reflexivity | apply not_elem_of_nil].
    - split.
      + destruct He as [-> | ->]; exact IH1.
      + rewrite not_elem_of_cons. split; [|exact IH2].
        destruct He as [-> | ->]; discriminate. }
  assert (o = let s := polled frame this in
              let o' := handleManagementLqiResponse frame s in
              mkOutcome (result o') (final o') (pending ++ trace o')) as Ho.
  { subst o pending. rewrite handleFrame_parts. cbv zeta. rewrite Hclear.
    unfold dispatch. rewrite decide_False by (rewrite Ht; discriminate).
    rewrite decide_True by exact Ht. rewrite decide_True by exact Hc.
    reflexivity. }
  rewrite Ho. cbv zeta.
  rewrite handleManagementLqiResponse_complete by exact Hlen.
  cbv zeta. cbn [result final trace]. fold next.
  assert (get_field "macAddress" (polled frame this)
          = get_field "macAddress" this) as ->
    by (unfold get_field; rewrite (polled_preserves fields) by reflexivity;
        reflexivity).
  split; [reflexivity|].
  case_decide.
  - split; [reflexivity|]. split.
    + unfold zdo_starts in *. rewrite omap_app, Hz. reflexivity.
    + rewrite elem_of_app. intros [Hin|Hin]; [exact (Hnc Hin)|].
      apply list_elem_of_singleton in Hin. discriminate.
  - split; [reflexivity|].
    unfold zdo_starts in *. rewrite omap_app, Hz. reflexivity.
Qed.

Lemma next_request_follows_entries_returned_witness :
  let table := [mkNeighbor "00212effff000002" "1a2b";
                mkNeighbor "00212effff000003" "3c4d"] in
  let frame := lqi_response 5 12 table in
  (type frame = APS_DATA_INDICATION
   /\ clusterId frame = MANAGEMENT_LQI_RESPONSE
   /\ numEntriesThisResponse frame <= Z.of_nat (length (neighbors frame)))
  /\ zdo_starts (trace (handleFrame PARAM fieldName frame opened)) = [7].
Proof.
  split; [repeat split; cbn; lia|].
  exact (proj1 (proj2 (proj2
    (next_request_follows_entries_returned PARAM fieldName opened
       (lqi_response 5 12 [mkNeighbor "00212effff000002" "1a2b";
                           mkNeighbor "00212effff000003" "3c4d"])
       eq_refl eq_refl ltac:(cbn; lia))))).
Defined.

(** The walk over a table of twelve entries in pages of five, five and two:
    requests for [startIndex] 0, 5 and 10 in this order, and the port is
    closed by the third page and not before. *)
Example pagination_walk :
  zdo_starts (trace (run PARAM fieldName
                       (parameter_responses ++ [page1; page2; page3])))
  = [0; 5; 10]
  /\ last (trace (run PARAM fieldName
                    (parameter_responses ++ [page1; page2; page3])))
     = Some PortClosed
  /\ List.existsb (fun e => match e with PortClosed => true | _ => false end)
       (trace (run PARAM fieldName (parameter_responses ++ [page1; page2])))
     = false
  /\ size (node16 (final (run PARAM fieldName
                            (parameter_responses ++ [page1; page2; page3]))))
     = 12%nat.
Proof. vm_compute. repeat split. Qed.

(** ** The registry along a run *)

Lemma same_registry_refl a : same_registry a a.
Proof. repeat split. Qed.

Lemma same_registry_trans a b c :
  same_registry a b -> same_registry b c -> same_registry a c.
Proof. intros (?&?&?) (?&?&?). repeat split; congruence. Qed.

Lemma register_same_registry nb a b :
  same_registry a b -> same_registry (register nb a) (register nb b).
Proof.
  intros (H16 & H64 & Hal). unfold register. repeat split; simpl.
  - rewrite H16, Hal. reflexivity.
  - rewrite H64, Hal. reflexivity.
  - rewrite Hal. reflexivity.
Qed.

Lemma register_all_same_registry table a b :
  same_registry a b ->
  same_registry (register_all table a) (register_all table b).
Proof.
  revert a b. induction table as [|nb table IH]; intros a b Hab; simpl.
  - exact Hab.
  - apply IH, register_same_registry, Hab.
Qed.

Lemma register_all_app t1 t2 this :
  register_all (t1 ++ t2) this = register_all t2 (register_all t1 this).
Proof. unfold register_all. apply foldl_app. Qed.

Section Registry.

Variable PARAM : list PARAM_ID.
Variable fieldName : PARAM_ID -> string.

Lemma handleManagementLqiResponse_final frame this :
  final (handleManagementLqiResponse frame this) =
  register_all (take (Z.to_nat (numEntriesThisResponse frame))
                     (neighbors frame)) this.
Proof.
  unfold handleManagementLqiResponse. unfold bind at 1.
  pose proof (registerNeighbors_final frame
                (Z.to_nat (numEntriesThisResponse frame)) 0 this
                (Z.le_refl 0)) as Hfin.
  rewrite Z2Nat.inj_0, drop_0 in Hfin.
  unfold register_all. rewrite <- Hfin.
  destruct (result (registerNeighbors frame _ 0 this)); [|reflexivity].
  cbn [final]. case_decide; reflexivity.
Qed.

Lemma dispatch_preserves_registry {B} (proj : DeconzTest -> B) frame :
  (forall name v this, proj (set_field name v this) = proj this) ->
  (forall i this, proj (set_paramIdx i this) = proj this) ->
  ~ (type frame = APS_DATA_INDICATION
     /\ clusterId frame = MANAGEMENT_LQI_RESPONSE) ->
  preserves proj (dispatch PARAM fieldName frame).
Proof.
  intros Hf Hi Hlqi. unfold dispatch.
  repeat case_decide; try apply preserves_ret; [|tauto].
  apply preserves_bind; [apply preserves_get | intros idx].
  case_decide; [|apply preserves_ret].
  case_match; [|apply preserves_throw].
  apply preserves_bind; [apply preserves_modify; intros; apply Hf | intros _].
  apply preserves_bind; [apply preserves_modify; intros; apply Hi | intros _].
  apply completion_preserves.
Qed.

Lemma dispatch_registry frame this :
  same_registry (final (dispatch PARAM fieldName frame this))
                (register_all (entries frame) this).
Proof.
  unfold entries. case_decide as Hlqi.
  - destruct Hlqi as [Ht Hc]. unfold dispatch.
    rewrite decide_False by (rewrite Ht; discriminate).
    rewrite decide_True by exact Ht. rewrite decide_True by exact Hc.
    rewrite handleManagementLqiResponse_final. apply same_registry_refl.
  - simpl. repeat split;
      apply dispatch_preserves_registry; auto.
Qed.

Lemma handleFrame_registry frame this :
  same_registry (final (handleFrame PARAM fieldName frame this))
                (register_all (entries frame) this).
Proof.
  rewrite handleFrame_parts. cbv zeta. cbn [final].
  eapply same_registry_trans; [apply dispatch_registry|].
  apply register_all_same_registry.
  repeat split; apply polled_preserves; reflexivity.
Qed.

Lemma deliver_registry frames this :
  same_registry (final (deliver PARAM fieldName frames this))
                (register_all (flat_map entries frames) this).
Proof.
  revert this. induction frames as [|frame rest IH]; intros this; simpl.
  - apply same_registry_refl.
  - unfold bind, onFrame; simpl. rewrite register_all_app.
    eapply same_registry_trans; [apply IH|].
    apply register_all_same_registry, handleFrame_registry.
Qed.

(** The registry at the end of a run is the one that registering the
    entries of its neighbor-table responses, in order, builds from the
    empty one. *)
Lemma run_registry frames :
  same_registry (final (run PARAM fieldName frames))
                (register_all (flat_map entries frames) constructed).
Proof.
  rewrite run_parts. cbv zeta. cbn [final].
  rewrite (proj2 (readParameters_start PARAM constructed)).
  eapply same_registry_trans; [apply deliver_registry|].
  apply register_all_same_registry. repeat split.
Qed.

End Registry.

Lemma pair_of_register nb n :
  pair_of (mkNode n (neighbor_addr64 nb) (neighbor_addr16 nb)) = nb.
Proof. destruct nb. reflexivity. Qed.

Lemma register_keyed nb this : keyed this -> keyed (register nb this).
Proof.
  intros [H16 H64]. split; simpl; intros k node Hk.
  - apply lookup_insert_Some in Hk as [[<- <-]|[_ Hk]]; [reflexivity|].
    eapply H16, Hk.
  - apply lookup_insert_Some in Hk as [[<- <-]|[_ Hk]]; [reflexivity|].
    eapply H64, Hk.
Qed.

Lemma register_all_keyed table this :
  keyed this -> keyed (register_all table this).
Proof.
  revert this. induction table as [|nb table IH]; intros this Hk; simpl.
  - exact Hk.
  - apply IH, register_keyed, Hk.
Qed.

Lemma keyed_same_registry a b : same_registry a b -> keyed b -> keyed a.
Proof. intros (H16 & H64 & _) [K16 K64]. split; rewrite ?H16, ?H64; auto. Qed.

Lemma run_keyed PARAM fieldName frames :
  keyed (final (run PARAM fieldName frames)).
Proof.
  eapply keyed_same_registry; [apply run_registry|].
  apply register_all_keyed. split; intros k node Hk; simpl in Hk;
    rewrite lookup_empty in Hk; discriminate.
Qed.

(** One registration keeps the mappings linked when the new entry agrees
    with the entries seen so far. *)
Lemma register_cross_linked nb this seen :
  cross_linked this seen ->
  pair_consistent (seen ++ [nb]) ->
  cross_linked (register nb this) (seen ++ [nb]).
Proof.
  intros [L16 L64] Hcons.
  assert (nb ∈ seen ++ [nb]) as Hnb by (apply elem_of_app; right; left).
  split; simpl; intros k node Hk.
  - apply lookup_insert_Some in Hk as [[<- <-]|[Hne Hk]]; simpl.
    + split; [reflexivity|]. split; [apply lookup_insert_eq|].
      rewrite pair_of_register. exact Hnb.
    + destruct (L16 _ _ Hk) as (Hkey & Hother & Hseen).
      split; [exact Hkey|]. split; [|apply elem_of_app; left; exact Hseen].
      rewrite lookup_insert_ne; [exact Hother|].
      intros Heq. apply Hne.
      assert (pair_of node ∈ seen ++ [nb]) as Hin
        by (apply elem_of_app; left; exact Hseen).
      rewrite <- Hkey. symmetry.
      apply (Hcons (pair_of node) nb Hin Hnb). simpl. symmetry. exact Heq.
  - apply lookup_insert_Some in Hk as [[<- <-]|[Hne Hk]]; simpl.
    + split; [reflexivity|]. split; [apply lookup_insert_eq|].
      rewrite pair_of_register. exact Hnb.
    + destruct (L64 _ _ Hk) as (Hkey & Hother & Hseen).
      split; [exact Hkey|]. split; [|apply elem_of_app; left; exact Hseen].
      rewrite lookup_insert_ne; [exact Hother|].
      intros Heq. apply Hne.
      assert (pair_of node ∈ seen ++ [nb]) as Hin
        by (apply elem_of_app; left; exact Hseen).
      rewrite <- Hkey. symmetry.
      apply (Hcons (pair_of node) nb Hin Hnb). simpl. symmetry. exact Heq.
Qed.

Lemma register_all_cross_linked table this seen :
  cross_linked this seen ->
  pair_consistent (seen ++ table) ->
  cross_linked (register_all table this) (seen ++ table).
Proof.
  revert this seen.
  induction table as [|nb table IH]; intros this seen Hl Hcons; simpl.
  - rewrite app_nil_r. exact Hl.
  - replace (seen ++ nb :: table) with ((seen ++ [nb]) ++ table) in *
      by (rewrite <- app_assoc; reflexivity).
    apply IH; [|exact Hcons].
    apply register_cross_linked; [exact Hl|].
    intros a b Ha Hb. apply Hcons; apply elem_of_app; left; assumption.
Qed.

Lemma cross_linked_registry_linked this seen :
  cross_linked this seen -> registry_linked this.
Proof.
  intros [L16 L64] node. split; intros [k Hk].
  - exists (addr64 node). apply (L16 _ _ Hk).
  - exists (addr16 node). apply (L64 _ _ Hk).
Qed.

Lemma cross_linked_same_registry a b seen :
  same_registry a b -> cross_linked b seen -> cross_linked a seen.
Proof.
  intros (H16 & H64 & _) [L16 L64]. split; rewrite ?H16, ?H64; auto.
Qed.

Lemma constructed_cross_linked : cross_linked constructed [].
Proof.
  split; intros k node Hk; simpl in Hk; rewrite lookup_empty in Hk;
    discriminate.
Qed.

(** C6, amended.  When the table entries registered over a run agree with
    each other (two entries have the same short address exactly when they
    have the same long address), then at the end of the run the two
    mappings hold the same [Node] objects: a [Node] under some short
    address is the very object under its long address, and the other way
    round. *)
Theorem registry_linked_when_consistent
    (PARAM : list PARAM_ID) (fieldName : PARAM_ID -> string)
    (frames : list Frame) :
  pair_consistent (flat_map entries frames) ->
  let this := final (run PARAM fieldName frames) in
  registry_linked this
  /\ (forall short node,
         node16 this !! short = Some node ->
         addr16 node = short /\ node64 this !! addr64 node = Some node)
  /\ (forall long node,
         node64 this !! long = Some node ->
         addr64 node = long /\ node16 this !! addr16 node = Some node).
Proof.
  intros Hcons this.
  assert (cross_linked this (flat_map entries frames)) as Hl.
  { eapply cross_linked_same_registry; [apply run_registry|].
    apply (register_all_cross_linked _ constructed []);
      [apply constructed_cross_linked | exact Hcons]. }
  split; [eapply cross_linked_registry_linked, Hl|].
  destruct Hl as [L16 L64].
  split; intros k node Hk.
  - destruct (L16 _ _ Hk) as (? & ? & _). auto.
  - destruct (L64 _ _ Hk) as (? & ? & _). auto.
Qed.

Lemma registry_linked_when_consistent_witness :
  let frames :=
    [lqi_response 0 2 [mkNeighbor "00212effff000002" "1a2b";
                       mkNeighbor "00212effff000003" "3c4d"]] in
  pair_consistent (flat_map entries frames)
  /\ registry_linked (final (run PARAM fieldName frames)).
Proof.
  assert (pair_consistent
            (flat_map entries
               [lqi_response 0 2 [mkNeighbor "00212effff000002" "1a2b";
                                  mkNeighbor "00212effff000003" "3c4d"]]))
    as Hcons.
  { intros a b Ha Hb. cbn in Ha, Hb.
    apply elem_of_cons in Ha as [->|Ha]; [|apply list_elem_of_singleton in Ha as ->];
    (apply elem_of_cons in Hb as [->|Hb]; [|apply list_elem_of_singleton in Hb as ->]);
    simpl; split; intros H; first [reflexivity | discriminate H]. }
  split; [exact Hcons|].
  exact (proj1 (registry_linked_when_consistent PARAM fieldName _ Hcons)).
Defined.

(** C6 as stated fails: a table that lists one long address with two short
    addresses (a device that joined again) leaves the first [Node] under
    its short address only. *)
Lemma registry_linked_counterexample :
  ~ registry_linked
      (final (run PARAM fieldName
                [lqi_response 0 2 [mkNeighbor "00212effff000002" "1a2b";
                                   mkNeighbor "00212effff000002" "3c4d"]])).
Proof.
  intros H.
  destruct (H (mkNode 0 "00212effff000002" "1a2b")) as [Hforth _].
  destruct Hforth as [long Hlong].
  { exists "1a2b". vm_compute. reflexivity. }
  assert (node64 (final (run PARAM fieldName
            [lqi_response 0 2 [mkNeighbor "00212effff000002" "1a2b";
                               mkNeighbor "00212effff000002" "3c4d"]]))
          = {[ "00212effff000002" := mkNode 1 "00212effff000002" "3c4d" ]})
    as Hmap by (vm_compute; reflexivity).
  rewrite Hmap in Hlong.
  apply lookup_singleton_Some in Hlong as [_ Hnode]. discriminate Hnode.
Qed.

(** C3, amended.  At any point of a run, registering an address pair a
    second time makes a new [Node] that takes the place of the first in
    both mappings: the two mappings then hold that one new object under
    the pair's addresses, no key is added, and no other [Node] with the
    pair's short address is in the short mapping, nor one with its long
    address in the long mapping. *)
Theorem reregistration_replaces_node
    (PARAM : list PARAM_ID) (fieldName : PARAM_ID -> string)
    (frames : list Frame) (nb : Neighbor) :
  let this := final (run PARAM fieldName frames) in
  let once := register nb this in
  let twice := register nb once in
  let first :=
    mkNode (allocated this) (neighbor_addr64 nb) (neighbor_addr16 nb) in
  let second :=
    mkNode (S (allocated this)) (neighbor_addr64 nb) (neighbor_addr16 nb) in
  (node16 once !! neighbor_addr16 nb = Some first
   /\ node64 once !! neighbor_addr64 nb = Some first)
  /\ (node16 twice !! neighbor_addr16 nb = Some second
      /\ node64 twice !! neighbor_addr64 nb = Some second)
  /\ first <> second
  /\ (dom (node16 twice) = dom (node16 once)
      /\ dom (node64 twice) = dom (node64 once))
  /\ (forall short node,
         node16 twice !! short = Some node ->
         addr16 node = neighbor_addr16 nb -> node = second)
  /\ (forall long node,
         node64 twice !! long = Some node ->
         addr64 node = neighbor_addr64 nb -> node = second).
Proof.
  intros this once twice first second.
  assert (keyed twice) as [K16 K64]
    by (apply register_keyed, register_keyed, run_keyed).
  assert (node16 twice !! neighbor_addr16 nb = Some second) as H16
    by apply lookup_insert_eq.
  assert (node64 twice !! neighbor_addr64 nb = Some second) as H64
    by apply lookup_insert_eq.
  split; [split; apply lookup_insert_eq|].
  split; [split; assumption|].
  split; [intros Heq; inversion Heq; lia|].
  split.
  - subst twice once. simpl.
    rewrite !insert_insert_eq, !dom_insert_L. split; reflexivity.
  - split; intros k node Hk Haddr.
    + apply K16 in Hk as Hkey. rewrite Haddr in Hkey. subst k. congruence.
    + apply K64 in Hk as Hkey. rewrite Haddr in Hkey. subst k. congruence.
Qed.

(** C3 as stated fails: the second registration of a pair does not keep
    the [Node] of the first, the mappings hold another object after it. *)
Lemma registration_keeps_node_counterexample :
  ~ registration_keeps_node opened (mkNeighbor "00212effff000002" "1a2b").
Proof.
  intros [H16 _]. simpl in H16.
  rewrite !lookup_insert_eq in H16. discriminate H16.
Qed.

(** * Further properties of the script *)

(** ** The parameter dump *)

Lemma dumpParametersOf_outcome (fieldName : PARAM_ID -> string) ps this :
  dumpParametersOf fieldName ps this =
  if decide (SCAN_CHANNELS ∈ ps
             /\ get_field (fieldName SCAN_CHANNELS) this = VUndefined)
  then mkOutcome Thrown this
                 (dump_lines fieldName (before_scan_channels ps) this)
  else mkOutcome (Normal tt) this (dump_lines fieldName ps this).
Proof.
  induction ps as [|p ps IH].
  - cbn [dumpParametersOf dump_lines map].
    case_decide as H; [|reflexivity].
    destruct H as [Hin _]. apply elem_of_nil in Hin. contradiction.
  - cbn [dumpParametersOf before_scan_channels dump_lines map].
    unfold bind at 1. cbn [get result final trace].
    destruct (decide (p = SCAN_CHANNELS)) as [->|Hp].
    + destruct (get_field (fieldName SCAN_CHANNELS) this) eqn:Hv.
      * rewrite decide_True by (split; [left | reflexivity]). reflexivity.
      * rewrite decide_False in IH by (intros [_ ?]; discriminate).
        rewrite decide_False by (intros [_ ?]; discriminate).
        unfold bind, ret, emit; simpl. rewrite IH. reflexivity.
      * rewrite decide_False in IH by (intros [_ ?]; discriminate).
        rewrite decide_False by (intros [_ ?]; discriminate).
        unfold bind, ret, emit; simpl. rewrite IH. reflexivity.
    + unfold bind, ret, emit; simpl. rewrite IH.
      destruct (decide (SCAN_CHANNELS ∈ ps /\ _)) as [[Hin Hu]|Hno].
      * rewrite decide_True by (split; [right; exact Hin | exact Hu]).
        reflexivity.
      * rewrite decide_False; [reflexivity|].
        intros [Hin Hu]. apply Hno. split; [|exact Hu].
        apply elem_of_cons in Hin as [Heq|Hin]; [|exact Hin].
        congruence.
Qed.

(** X1.  [dumpParameters] never changes the object.  It throws exactly
    when [SCAN_CHANNELS] is among the descriptors and the scan-channels
    property of the object is [undefined]; the lines for the descriptors
    ahead of it are then logged already.  Otherwise it logs one line per
    descriptor, in the order of [PARAM], with the property's value. *)
Theorem dumpParameters_outcome
    (PARAM : list PARAM_ID) (fieldName : PARAM_ID -> string)
    (this : DeconzTest) :
  let o := dumpParameters PARAM fieldName this in
  final o = this
  /\ (result o = Thrown
      <-> SCAN_CHANNELS ∈ PARAM
          /\ get_field (fieldName SCAN_CHANNELS) this = VUndefined)
  /\ trace o =
     dump_lines fieldName
       (match result o with
        | Normal _ => PARAM
        | Thrown => before_scan_channels PARAM
        end) this.
Proof.
  intros o. subst o. unfold dumpParameters.
  rewrite dumpParametersOf_outcome.
  case_decide as H; cbn [result final trace].
  - split; [reflexivity|]. split; [|reflexivity]. split; auto.
  - split; [reflexivity|]. split; [|reflexivity].
    split; [discriminate | intros H'; contradiction].
Qed.

(** ** An accepted parameter response *)

Lemma zdo_starts_dump_lines fieldName ps this :
  zdo_starts (dump_lines fieldName ps this) = [].
Proof. induction ps as [|p ps IH]; [reflexivity | exact IH]. Qed.

Lemma pending_trace frame this :
  zdo_starts (trace (pollPending frame this)) = []
  /\ read_requests (trace (pollPending frame this)) = []
  /\ (PortClosed ∉ trace (pollPending frame this))
  /\ (length (sent (trace (pollPending frame this))) <= 1)%nat.
Proof.
  unfold pollPending.
  destruct (own_truthy (dataConfirm frame)); simpl.
  - repeat split; auto. intros H. apply list_elem_of_singleton in H.
    discriminate.
  - unfold bind; simpl.
    destruct (deviceStateUpdateInProgress this); simpl;
      [repeat split; auto; apply not_elem_of_nil|].
    destruct (own_truthy (dataIndication frame)); simpl;
      [|repeat split; auto; apply not_elem_of_nil].
    repeat split; auto. intros H. apply list_elem_of_singleton in H.
    discriminate.
Qed.

Lemma bind_modify {A} f (k : unit -> M A) this :
  bind (modify f) k this = k tt (f this).
Proof. unfold bind; simpl. destruct (k tt (f this)). reflexivity. Qed.

Lemma bind_get {A B} (proj : DeconzTest -> B) (k : B -> M A) this :
  bind (get proj) k this = k (proj this) this.
Proof. unfold bind; simpl. destruct (k (proj this) this). reflexivity. Qed.

Lemma bind_outcome {A B} (m : M A) (k : A -> M B) this :
  bind m k this =
  match result (m this) with
  | Normal a =>
      let o' := k a (final (m this)) in
      mkOutcome (result o') (final o') (trace (m this) ++ trace o')
  | Thrown => mkOutcome Thrown (final (m this)) (trace (m this))
  end.
Proof. reflexivity. Qed.

Section Accepted.

Variable PARAM : list PARAM_ID.
Variable fieldName : PARAM_ID -> string.

(** The object after lines 179-180. *)
Local Abbreviation stored_in frame p this :=
  (set_paramIdx (paramIdx this + 1)
     (set_field (fieldName p) (frame_field frame (fieldName p)) this)).

Lemma dispatch_accepted frame this p :
  type frame = READ_PARAMETER ->
  index PARAM (paramIdx this) = Some p ->
  dispatch PARAM fieldName frame this =
  if decide (paramIdx this + 1 = PARAM_length PARAM)
  then if decide (SCAN_CHANNELS ∈ PARAM
                  /\ get_field (fieldName SCAN_CHANNELS)
                               (stored_in frame p this) = VUndefined)
       then mkOutcome Thrown (stored_in frame p this)
              (dump_lines fieldName (before_scan_channels PARAM)
                          (stored_in frame p this))
       else mkOutcome (Normal tt) (stored_in frame p this)
              (dump_lines fieldName PARAM (stored_in frame p this)
               ++ [Sent (ZdoFrame None
                           (get_field "macAddress" (stored_in frame p this))
                           "0000" MANAGEMENT_LQI_REQUEST 0)])
  else mkOutcome (Normal tt) (stored_in frame p this)
         [Sent (DeconzFrame READ_PARAMETER (index PARAM (paramIdx this + 1)))].
Proof.
  intros Ht Hp.
  assert (0 <= paramIdx this < PARAM_length PARAM) as Hin
    by (apply index_is_Some; eauto).
  unfold dispatch. rewrite decide_True by exact Ht.
  rewrite bind_get. rewrite decide_True by lia. rewrite Hp.
  rewrite !bind_modify.
  destruct (decide (paramIdx this + 1 = PARAM_length PARAM)) as [Hend|Hend].
  - rewrite bind_outcome. unfold dumpParameters.
    rewrite dumpParametersOf_outcome.
    case_decide; cbn [result final trace]; reflexivity.
  - unfold readParameter. rewrite decide_False by lia. reflexivity.
Qed.

Lemma clearOnApsData_parameter frame this :
  type frame = READ_PARAMETER ->
  clearOnApsData frame this = mkOutcome (Normal tt) this [].
Proof.
  intros Ht. unfold clearOnApsData. rewrite decide_False; [reflexivity|].
  rewrite Ht. intros [?|?]; discriminate.
Qed.

Lemma handleFrame_accepted frame this p :
  type frame = READ_PARAMETER ->
  index PARAM (paramIdx this) = Some p ->
  handleFrame PARAM fieldName frame this =
  (let o := dispatch PARAM fieldName frame (final (pollPending frame this)) in
   mkOutcome (result o) (final o) (trace (pollPending frame this) ++ trace o))
  /\ index PARAM (paramIdx (final (pollPending frame this))) = Some p
  /\ fields (final (pollPending frame this)) = fields this
  /\ paramIdx (final (pollPending frame this)) = paramIdx this.
Proof.
  intros Ht Hp. rewrite handleFrame_parts. unfold polled.
  rewrite clearOnApsData_parameter by exact Ht. cbn [final].
  rewrite (pollPending_preserves paramIdx), (pollPending_preserves fields)
    by reflexivity.
  auto.
Qed.

End Accepted.

(** X2.  A parameter response that the cursor accepts stores the frame's
    value of the descriptor's field in the object under the field's name,
    whatever was there, and touches no other stored parameter.  While
    descriptors remain after it, handling returns normally and, after the
    answer to a pending signal, writes the read of the next descriptor and
    nothing more. *)
Theorem parameter_response_stores_field
    (PARAM : list PARAM_ID) (fieldName : PARAM_ID -> string)
    (this : DeconzTest) (frame : Frame) (p : PARAM_ID) :
  type frame = READ_PARAMETER ->
  index PARAM (paramIdx this) = Some p ->
  let o := handleFrame PARAM fieldName frame this in
  fields (final o)
  = <[fieldName p := frame_field frame (fieldName p)]> (fields this)
  /\ get_field (fieldName p) (final o) = frame_field frame (fieldName p)
  /\ (forall name, name <> fieldName p ->
        get_field name (final o) = get_field name this)
  /\ (paramIdx this + 1 < PARAM_length PARAM ->
      result o = Normal tt
      /\ is_Some (index PARAM (paramIdx this + 1))
      /\ trace o =
         trace (pollPending frame this)
         ++ [Sent (DeconzFrame READ_PARAMETER
                               (index PARAM (paramIdx this + 1)))]).
Proof.
  intros Ht Hp o.
  destruct (handleFrame_accepted PARAM fieldName frame this p Ht Hp)
    as (Ho & Hp' & Hf & Hi).
  subst o. rewrite Ho. cbv zeta. cbn [result final trace].
  rewrite (dispatch_accepted PARAM fieldName frame _ p Ht Hp').
  rewrite Hi.
  assert (forall s, fields s
            = <[fieldName p := frame_field frame (fieldName p)]> (fields this)
            -> get_field (fieldName p) s = frame_field frame (fieldName p)
               /\ forall name, name <> fieldName p ->
                    get_field name s = get_field name this) as Hget.
  { intros s Hs. unfold get_field. rewrite Hs. split.
    - rewrite lookup_insert_eq. reflexivity.
    - intros name Hne. rewrite lookup_insert_ne by auto. reflexivity. }
  repeat case_decide; cbn [result final trace];
    (split; [cbn; rewrite Hf; reflexivity|]);
    (split; [apply Hget; cbn; rewrite Hf; reflexivity|]);
    (split; [apply Hget; cbn; rewrite Hf; reflexivity|]);
    intros Hlt; try lia.
  split; [reflexivity|]. split; [|reflexivity].
  apply index_is_Some.
  assert (0 <= paramIdx this < PARAM_length PARAM)
    by (apply index_is_Some; eauto).
  unfold PARAM_length in *. lia.
Qed.

Lemma parameter_response_stores_field_witness :
  let frame := parameter_response false false "macAddress"
                                  (VString "00212effff000001") in
  let o := handleFrame PARAM fieldName frame opened in
  (type frame = READ_PARAMETER
   /\ index PARAM (paramIdx opened) = Some MAC_ADDRESS)
  /\ get_field "macAddress" (final o) = VString "00212effff000001"
  /\ trace o = [Sent (DeconzFrame READ_PARAMETER (Some NETWORK_PANID16))].
Proof.
  split; [split; reflexivity|].
  pose proof (parameter_response_stores_field PARAM fieldName opened
                (parameter_response false false "macAddress"
                                    (VString "00212effff000001"))
                MAC_ADDRESS eq_refl eq_refl) as H.
  cbv zeta in H. destruct H as (_ & Hget & _ & Hnext).
  assert (paramIdx opened + 1 < PARAM_length PARAM) as Hlt
    by (vm_compute; reflexivity).
  split; [exact Hget|].
  exact (proj2 (proj2 (Hnext Hlt))).
Defined.

(** X3.  The response to the last descriptor moves the cursor onto
    [PARAM.length] and dumps the parameters.  When the dump does not throw
    (no [SCAN_CHANNELS] among the descriptors, or a scan-channels value in
    the object), the last thing written is the first neighbor-table
    request: [startIndex] 0, no frame type, addressed to the stored
    [macAddress], this frame's value included.  When the dump throws, the
    handler throws, the cursor has moved all the same, and no
    neighbor-table request is written. *)
Theorem last_parameter_response_opens_walk
    (PARAM : list PARAM_ID) (fieldName : PARAM_ID -> string)
    (this : DeconzTest) (frame : Frame) (p : PARAM_ID) :
  type frame = READ_PARAMETER ->
  index PARAM (paramIdx this) = Some p ->
  paramIdx this + 1 = PARAM_length PARAM ->
  let o := handleFrame PARAM fieldName frame this in
  let pending := trace (pollPending frame this) in
  paramIdx (final o) = PARAM_length PARAM
  /\ if decide (SCAN_CHANNELS ∈ PARAM
                /\ get_field (fieldName SCAN_CHANNELS) (final o) = VUndefined)
     then result o = Thrown
          /\ trace o = pending
                       ++ dump_lines fieldName (before_scan_channels PARAM)
                                     (final o)
          /\ zdo_starts (trace o) = []
     else result o = Normal tt
          /\ trace o = pending
                       ++ dump_lines fieldName PARAM (final o)
                       ++ [Sent (ZdoFrame None
                                   (get_field "macAddress" (final o))
                                   "0000" MANAGEMENT_LQI_REQUEST 0)]
          /\ zdo_starts (trace o) = [0].
Proof.
  intros Ht Hp Hend o pending.
  destruct (handleFrame_accepted PARAM fieldName frame this p Ht Hp)
    as (Ho & Hp' & Hf & Hi).
  destruct (pending_trace frame this) as (Hz & _).
  subst o pending. rewrite Ho. cbv zeta. cbn [result final trace].
  rewrite (dispatch_accepted PARAM fieldName frame _ p Ht Hp').
  rewrite Hi. rewrite decide_True by exact Hend.
  case_decide as Hscan; cbn [result final trace].
  - split; [cbn; lia|]. rewrite decide_True by exact Hscan.
    split; [reflexivity|]. split; [reflexivity|].
    unfold zdo_starts in *. rewrite omap_app, Hz.
    apply zdo_starts_dump_lines.
  - split; [cbn; lia|]. rewrite decide_False by exact Hscan.
    split; [reflexivity|]. split; [reflexivity|].
    unfold zdo_starts in *. rewrite !omap_app, Hz.
    fold (zdo_starts (dump_lines fieldName PARAM
            (set_paramIdx (paramIdx this + 1)
               (set_field (fieldName p) (frame_field frame (fieldName p))
                  (final (pollPending frame this)))))).
    rewrite zdo_starts_dump_lines. reflexivity.
Qed.

Lemma last_parameter_response_opens_walk_witness :
  let this := set_paramIdx 12 opened in
  let frame := parameter_response false false "networkUpdateId" (VNumber 7) in
  let o := handleFrame PARAM fieldName frame this in
  (type frame = READ_PARAMETER
   /\ index PARAM (paramIdx this) = Some NETWORK_UPDATE_ID
   /\ paramIdx this + 1 = PARAM_length PARAM)
  /\ paramIdx (final o) = 13
  /\ result o = Thrown
  /\ zdo_starts (trace o) = [].
Proof.
  split; [repeat split; reflexivity|].
  pose proof (last_parameter_response_opens_walk PARAM fieldName
                (set_paramIdx 12 opened)
                (parameter_response false false "networkUpdateId" (VNumber 7))
                NETWORK_UPDATE_ID eq_refl eq_refl eq_refl) as H.
  split; [exact (proj1 H)|].
  split; reflexivity.
Defined.

(** ** What is written over a run *)

Lemma omap_none {A B} (f : A -> option B) (l : list A) :
  Forall (fun x => f x = None) l -> omap f l = [].
Proof.
  induction 1 as [|x l Hx _ IH]; [reflexivity|].
  simpl. rewrite Hx. exact IH.
Qed.

Lemma read_requests_dump_lines fieldName ps this :
  read_requests (dump_lines fieldName ps this) = [].
Proof. induction ps as [|p ps IH]; [reflexivity | exact IH]. Qed.

Section Written.

Variable PARAM : list PARAM_ID.
Variable fieldName : PARAM_ID -> string.

(** A frame the cursor does not accept gets nothing from [dispatch] but
    what the neighbor-table walk writes. *)
Lemma dispatch_not_accepted_emits (P : Event -> Prop) frame this :
  (forall ty d64 d16 c s, P (Sent (ZdoFrame (Some ty) d64 d16 c s))) ->
  (forall m, P (LogNodes m)) ->
  P PortClosed ->
  ~ accepted PARAM this frame ->
  Forall P (trace (dispatch PARAM fieldName frame this)).
Proof.
  intros Pz Pn Pc Hacc. unfold dispatch.
  destruct (decide (type frame = READ_PARAMETER)) as [Ht|Ht].
  - rewrite bind_get. rewrite decide_False; [constructor|].
    intros Hlt. apply Hacc. split; assumption.
  - repeat case_decide; try constructor.
    apply handleManagementLqiResponse_emits; assumption.
Qed.

Lemma accepted_index this frame :
  0 <= paramIdx this ->
  accepted PARAM this frame ->
  exists p, index PARAM (paramIdx this) = Some p.
Proof.
  intros H0 [_ Hlt]. apply index_is_Some.
  unfold PARAM_length in Hlt. lia.
Qed.

Lemma polled_accepted frame this :
  accepted PARAM (polled frame this) frame <-> accepted PARAM this frame.
Proof.
  unfold accepted. rewrite (polled_preserves paramIdx) by reflexivity.
  reflexivity.
Qed.

(** X4.  Over every run, the parameter reads written so far are the reads
    of the first descriptors of [PARAM], in order and each once: one more
    than responses were accepted, as far as there are descriptors.  No
    read is written twice or out of order, and none with an [undefined]
    [paramId]. *)
Theorem run_parameter_requests (frames : list Frame) :
  let o := run PARAM fieldName frames in
  read_requests (trace o)
  = Some <$> take (S (Z.to_nat (paramIdx (final o)))) PARAM.
Proof.
  cbv zeta.
  pose (I := fun this tr =>
    0 <= paramIdx this <= PARAM_length PARAM
    /\ read_requests tr = Some <$> take (S (Z.to_nat (paramIdx this))) PARAM).
  enough (I (final (run PARAM fieldName frames))
            (trace (run PARAM fieldName frames))) as H by apply H.
  apply run_invariant; unfold I.
  - rewrite (proj2 (readParameters_start PARAM constructed)).
    unfold readParameters, readParameter, PARAM_length.
    rewrite bind_modify, bind_get. cbn [paramIdx set_paramIdx].
    split; [lia|].
    destruct PARAM as [|p0 rest]; [reflexivity|].
    rewrite decide_False by (cbn [length]; lia). reflexivity.
  - intros frame this tr [Hb Hreq].
    rewrite handleFrame_paramIdx.
    rewrite handleFrame_parts. cbv zeta. cbn [trace].
    unfold read_requests in *. rewrite !omap_app, Hreq.
    rewrite (proj1 (proj2 (pending_trace frame _))). cbn [app].
    fold read_requests.
    destruct (decide (accepted PARAM this frame)) as [Hacc|Hacc].
    + destruct Hacc as [Ht Hlt].
      rewrite decide_True by (split; [exact Ht | lia]).
      assert (exists p, index PARAM (paramIdx (polled frame this)) = Some p)
        as [p Hp].
      { apply (accepted_index _ frame);
          [rewrite (polled_preserves paramIdx) by reflexivity; lia|].
        apply polled_accepted. split; assumption. }
      rewrite (dispatch_accepted PARAM fieldName frame _ p Ht Hp).
      rewrite (polled_preserves paramIdx) by reflexivity.
      split; [lia|].
      destruct (decide (paramIdx this + 1 = PARAM_length PARAM)) as [He|He].
      * assert (read_requests
                  (trace (if decide (SCAN_CHANNELS ∈ PARAM /\ _)
                          then _ else _)) = []) as ->.
        { case_decide; cbn [trace]; unfold read_requests;
            rewrite ?omap_app; fold read_requests;
            rewrite read_requests_dump_lines; reflexivity. }
        rewrite app_nil_r. f_equal.
        rewrite !take_ge; [reflexivity| |]; unfold PARAM_length in *; lia.
      * cbn [trace].
        assert (is_Some (index PARAM (paramIdx this + 1))) as [next Hnext]
          by (apply index_is_Some; unfold PARAM_length in *; lia).
        rewrite Hnext. cbn.
        replace (Z.to_nat (paramIdx this + 1))
          with (S (Z.to_nat (paramIdx this))) by lia.
        unfold index in Hnext. rewrite decide_True in Hnext by lia.
        replace (Z.to_nat (paramIdx this + 1))
          with (S (Z.to_nat (paramIdx this))) in Hnext by lia.
        rewrite (take_S_r _ _ _ Hnext), fmap_app. reflexivity.
    + rewrite decide_False
        by (intros [Ht Hin]; apply Hacc; split; [exact Ht | lia]).
      split; [exact Hb|].
      rewrite omap_none; [apply app_nil_r|].
      apply dispatch_not_accepted_emits; try reflexivity.
      rewrite polled_accepted. exact Hacc.
Qed.

End Written.

(** ** The pending signals, in full *)

(** X5.  What a frame does to the in-flight flag and which pending answer
    it gets, in every case.  A frame of type [APS_DATA_INDICATION] or
    [APS_DATA_CONFIRM] counts as nothing in flight.  The flag ends up set
    when the frame carries one of the two signals or something was in
    flight.  The confirmation is requested when the confirm signal is
    there; the indication is requested when only the indication signal is
    there and nothing was in flight; otherwise neither is requested, and
    never both. *)
Theorem pending_signals_answered
    (PARAM : list PARAM_ID) (fieldName : PARAM_ID -> string)
    (this : DeconzTest) (frame : Frame) :
  let o := handleFrame PARAM fieldName frame this in
  let inFlight :=
    if decide (type frame = APS_DATA_INDICATION
               \/ type frame = APS_DATA_CONFIRM)
    then false
    else deviceStateUpdateInProgress this in
  deviceStateUpdateInProgress (final o)
  = own_truthy (dataConfirm frame) || inFlight
    || own_truthy (dataIndication frame)
  /\ List.filter is_pending_answer (trace o)
     = if own_truthy (dataConfirm frame) then [Sent confirm_request]
       else if negb inFlight && own_truthy (dataIndication frame)
            then [Sent indication_request]
            else [].
Proof.
  intros o inFlight. subst o. rewrite handleFrame_parts. cbv zeta.
  cbn [final trace]. rewrite dispatch_flag, List.filter_app.
  rewrite (filter_none _ (trace (dispatch _ _ _ _)))
    by (apply (dispatch_emits PARAM fieldName
                 (fun e => is_pending_answer e = false)); reflexivity).
  rewrite app_nil_r. unfold polled.
  assert (final (clearOnApsData frame this)
          = set_deviceStateUpdateInProgress inFlight this
          \/ (final (clearOnApsData frame this) = this
              /\ inFlight = deviceStateUpdateInProgress this)) as Hclear.
  { subst inFlight. unfold clearOnApsData. case_decide; [left|right]; auto. }
  unfold pollPending.
  destruct (own_truthy (dataConfirm frame)); [split; reflexivity|].
  rewrite bind_get.
  set (s := final (clearOnApsData frame this)) in *.
  assert (deviceStateUpdateInProgress s = inFlight) as Hs
    by (destruct Hclear as [-> | [-> ->]]; reflexivity).
  clearbody inFlight s. subst inFlight.
  destruct (deviceStateUpdateInProgress s) eqn:E; cbn; rewrite ?E;
    [split; reflexivity|].
  destruct (own_truthy (dataIndication frame)); cbn; rewrite ?E;
    split; reflexivity.
Qed.

Section Bounds.

Variable PARAM : list PARAM_ID.
Variable fieldName : PARAM_ID -> string.

Lemma sent_dump_lines ps this : sent (dump_lines fieldName ps this) = [].
Proof. induction ps as [|p ps IH]; [reflexivity | exact IH]. Qed.

Lemma sent_app tr1 tr2 : sent (tr1 ++ tr2) = sent tr1 ++ sent tr2.
Proof. apply omap_app. Qed.

Lemma handleManagementLqiResponse_sent_once frame this :
  (length (sent (trace (handleManagementLqiResponse frame this))) <= 1)%nat.
Proof.
  unfold handleManagementLqiResponse. rewrite bind_outcome.
  rewrite registerNeighbors_silent.
  destruct (result (registerNeighbors frame _ 0 this));
    cbn [trace app]; [|simpl; lia].
  case_decide; simpl; lia.
Qed.

Lemma dispatch_sent_once frame this :
  (length (sent (trace (dispatch PARAM fieldName frame this))) <= 1)%nat.
Proof.
  destruct (decide (type frame = READ_PARAMETER)) as [Ht|Ht].
  - destruct (index PARAM (paramIdx this)) as [p|] eqn:Hp.
    + rewrite (dispatch_accepted PARAM fieldName frame this p Ht Hp).
      repeat case_decide; cbn [trace]; rewrite ?sent_app, ?sent_dump_lines;
        simpl; lia.
    + unfold dispatch. rewrite decide_True by exact Ht.
      rewrite bind_get, Hp. case_decide; simpl; lia.
  - unfold dispatch. rewrite decide_False by exact Ht.
    repeat case_decide; try (simpl; lia).
    apply handleManagementLqiResponse_sent_once.
Qed.

End Bounds.

(** X6.  Handling one inbound frame writes at most two frames to the port:
    at most one answer to a pending signal and at most one request. *)
Theorem handleFrame_sends_at_most_two
    (PARAM : list PARAM_ID) (fieldName : PARAM_ID -> string)
    (this : DeconzTest) (frame : Frame) :
  (length (sent (trace (handleFrame PARAM fieldName frame this))) <= 2)%nat.
Proof.
  rewrite handleFrame_parts. cbv zeta. cbn [trace].
  rewrite sent_app, length_app.
  pose proof (proj2 (proj2 (proj2
    (pending_trace frame (final (clearOnApsData frame this)))))) as H1.
  pose proof (dispatch_sent_once PARAM fieldName frame (polled frame this))
    as H2.
  lia.
Qed.

(** ** The frames a run writes *)

Section Shapes.

Variable PARAM : list PARAM_ID.
Variable fieldName : PARAM_ID -> string.

(** Every frame among [events] is one the script builds. *)
Local Abbreviation shaped events :=
  (Forall (well_shaped PARAM) (sent events)).

Lemma shaped_app tr1 tr2 : shaped tr1 -> shaped tr2 -> shaped (tr1 ++ tr2).
Proof. intros H1 H2. rewrite sent_app. apply Forall_app. auto. Qed.

Lemma shaped_each tr : Forall (fun e => shaped [e]) tr -> shaped tr.
Proof.
  induction 1 as [|e tr He _ IH]; [constructor|].
  change (e :: tr) with ([e] ++ tr). apply shaped_app; assumption.
Qed.

Lemma shaped_dump_lines ps this : shaped (dump_lines fieldName ps this).
Proof. rewrite sent_dump_lines. constructor. Qed.

Lemma shaped_pending frame this : shaped (trace (pollPending frame this)).
Proof.
  apply shaped_each, pollPending_emits; repeat constructor.
Qed.

Lemma shaped_dispatch frame this :
  0 <= paramIdx this ->
  shaped (trace (dispatch PARAM fieldName frame this)).
Proof.
  intros H0.
  destruct (decide (accepted PARAM this frame)) as [Hacc|Hacc].
  - destruct (accepted_index PARAM this frame H0 Hacc) as [p Hp].
    destruct Hacc as [Ht Hlt].
    rewrite (dispatch_accepted PARAM fieldName frame this p Ht Hp).
    repeat case_decide; cbn [trace].
    + apply shaped_dump_lines.
    + apply shaped_app; [apply shaped_dump_lines|].
      repeat constructor.
    + assert (is_Some (index PARAM (paramIdx this + 1))) as [next Hnext]
        by (apply index_is_Some; unfold PARAM_length in *; lia).
      rewrite Hnext. repeat constructor. simpl.
      unfold index in Hnext. case_decide; [|discriminate].
      eapply list_elem_of_lookup_2, Hnext.
  - unfold dispatch.
    destruct (decide (type frame = READ_PARAMETER)) as [Ht|Ht].
    + rewrite bind_get. rewrite decide_False; [constructor|].
      intros Hlt. apply Hacc. split; assumption.
    + repeat case_decide; try constructor.
      unfold handleManagementLqiResponse.
      rewrite bind_outcome, registerNeighbors_silent.
      destruct (result (registerNeighbors frame _ 0 this));
        cbn [trace app]; [|constructor].
      case_decide; repeat constructor.
Qed.

End Shapes.

(** X7.  Whatever frames arrive, every frame a run writes to the port is
    one of four: the read of a parameter that [PARAM] lists, the
    data-confirm request, the data-indication request, or a ZDO request
    with [destination16] 0000 and the Management-LQI request cluster. *)
Theorem run_writes_only_known_frames
    (PARAM : list PARAM_ID) (fieldName : PARAM_ID -> string)
    (frames : list Frame) :
  Forall (well_shaped PARAM) (sent (trace (run PARAM fieldName frames))).
Proof.
  pose (I := fun this tr =>
    0 <= paramIdx this <= PARAM_length PARAM
    /\ Forall (well_shaped PARAM) (sent tr)).
  enough (I (final (run PARAM fieldName frames))
            (trace (run PARAM fieldName frames))) as H by apply H.
  apply run_invariant; unfold I.
  - rewrite (proj2 (readParameters_start PARAM constructed)).
    unfold readParameters, readParameter, PARAM_length.
    rewrite bind_modify, bind_get. cbn [paramIdx set_paramIdx].
    split; [lia|].
    destruct PARAM as [|p0 rest]; [repeat constructor|].
    rewrite decide_False by (cbn [length]; lia).
    repeat constructor.
  - intros frame this tr [Hb Hsh].
    split.
    + rewrite handleFrame_paramIdx. case_decide; lia.
    + rewrite handleFrame_parts. cbv zeta. cbn [trace].
      apply shaped_app; [exact Hsh|].
      apply shaped_app; [apply shaped_pending|].
      apply shaped_dispatch.
      rewrite (polled_preserves paramIdx) by reflexivity. lia.
Qed.

(** ** When handling a frame throws *)

Lemma registerNeighbors_throws frame n idx this :
  0 <= idx <= Z.of_nat (length (neighbors frame)) ->
  Z.of_nat (length (neighbors frame)) < idx + Z.of_nat n ->
  result (registerNeighbors frame n idx this) = Thrown.
Proof.
  revert idx this. induction n as [|n IH]; intros idx this Hidx Hlen.
  - lia.
  - simpl. destruct (index (neighbors frame) idx) as [nb|] eqn:Hnb;
      [|reflexivity].
    assert (is_Some (index (neighbors frame) idx)) as Hs by eauto.
    apply index_is_Some in Hs.
    rewrite bind_modify. apply IH; lia.
Qed.

Lemma handleManagementLqiResponse_throws_iff frame this :
  result (handleManagementLqiResponse frame this) = Thrown
  <-> Z.of_nat (length (neighbors frame)) < numEntriesThisResponse frame.
Proof.
  split.
  - intros Hthrown.
    destruct (decide (numEntriesThisResponse frame
                      <= Z.of_nat (length (neighbors frame)))) as [Hle|]; [|lia].
    rewrite (handleManagementLqiResponse_complete frame this Hle) in Hthrown.
    discriminate Hthrown.
  - intros Hlt. unfold handleManagementLqiResponse. rewrite bind_outcome.
    rewrite registerNeighbors_throws by lia. reflexivity.
Qed.

(** X8.  In a run, handling a frame throws in two cases and no other: the
    frame is the response to the last descriptor and the parameter dump
    finds no scan-channels value in the object; or the frame is a
    neighbor-table response that announces more entries than its
    [neighbors] holds. *)
Theorem handleFrame_throws_iff
    (PARAM : list PARAM_ID) (fieldName : PARAM_ID -> string)
    (frames : list Frame) (frame : Frame) :
  let this := final (run PARAM fieldName frames) in
  let o := handleFrame PARAM fieldName frame this in
  result o = Thrown
  <-> (type frame = READ_PARAMETER
       /\ paramIdx this + 1 = PARAM_length PARAM
       /\ SCAN_CHANNELS ∈ PARAM
       /\ get_field (fieldName SCAN_CHANNELS) (final o) = VUndefined)
      \/ (type frame = APS_DATA_INDICATION
          /\ clusterId frame = MANAGEMENT_LQI_RESPONSE
          /\ Z.of_nat (length (neighbors frame))
             < numEntriesThisResponse frame).
Proof.
  intros this o.
  pose proof (run_cursor_bounds PARAM fieldName frames) as Hb.
  fold this in Hb. subst o. clearbody this.
  rewrite handleFrame_parts. cbv zeta. cbn [result final].
  assert (paramIdx (polled frame this) = paramIdx this) as Hidx
    by (apply polled_preserves; reflexivity).
  destruct (decide (type frame = READ_PARAMETER)) as [Ht|Ht].
  - destruct (decide (paramIdx this < PARAM_length PARAM)) as [Hlt|Hge].
    + assert (exists p, index PARAM (paramIdx (polled frame this)) = Some p)
        as [p Hp]
        by (apply index_is_Some; rewrite Hidx; unfold PARAM_length in *; lia).
      rewrite (dispatch_accepted PARAM fieldName frame _ p Ht Hp).
      rewrite Hidx.
      destruct (decide (paramIdx this + 1 = PARAM_length PARAM)) as [He|He];
        [destruct (decide (SCAN_CHANNELS ∈ PARAM /\ _)) as [Hs|Hs]|];
        cbn [result final]; split.
      * intros _. left. destruct Hs. auto.
      * reflexivity.
      * discriminate.
      * intros [(_ & _ & Hin & Hu)|(Ht' & _)]; [|congruence].
        exfalso. apply Hs. split; assumption.
      * discriminate.
      * intros [(_ & He' & _)|(Ht' & _)]; [contradiction | congruence].
    + rewrite dispatch_past_end by (rewrite ?Hidx; auto; lia).
      cbn [result]. split; [discriminate|].
      intros [(_ & He & _)|(Ht' & _)]; [lia | congruence].
  - destruct (decide (type frame = APS_DATA_INDICATION
                      /\ clusterId frame = MANAGEMENT_LQI_RESPONSE))
      as [[Hi Hc]|Hno].
    + unfold dispatch. rewrite decide_False by exact Ht.
      rewrite decide_True by exact Hi. rewrite decide_True by exact Hc.
      rewrite handleManagementLqiResponse_throws_iff.
      split; [auto|]. intros [(Ht' & _)|(_ & _ & Hlt)]; [contradiction|auto].
    + rewrite dispatch_other by assumption. cbn [result].
      split; [discriminate|].
      intros [(Ht' & _)|(Hi & Hc & _)]; [contradiction | tauto].
Qed.

(** X9.  A neighbor-table response that announces more entries than its
    [neighbors] holds makes the handler throw after the entries that are
    there have all been registered: no next request is written, the nodes
    are not dumped and the port stays open. *)
Theorem short_table_stalls_walk
    (PARAM : list PARAM_ID) (fieldName : PARAM_ID -> string)
    (this : DeconzTest) (frame : Frame) :
  type frame = APS_DATA_INDICATION ->
  clusterId frame = MANAGEMENT_LQI_RESPONSE ->
  Z.of_nat (length (neighbors frame)) < numEntriesThisResponse frame ->
  let o := handleFrame PARAM fieldName frame this in
  result o = Thrown
  /\ same_registry (final o) (register_all (neighbors frame) this)
  /\ trace o
     = trace (pollPending frame (set_deviceStateUpdateInProgress false this))
  /\ zdo_starts (trace o) = []
  /\ PortClosed ∉ trace o.
Proof.
  intros Ht Hc Hlen o.
  assert (same_registry (final o) (register_all (neighbors frame) this))
    as Hreg.
  { subst o.
    assert (entries frame = neighbors frame) as <-
      by (unfold entries; rewrite decide_True by auto; apply take_ge; lia).
    apply handleFrame_registry. }
  assert (final (clearOnApsData frame this) =
          set_deviceStateUpdateInProgress false this) as Hclear
    by (unfold clearOnApsData; rewrite decide_True by auto; reflexivity).
  assert (trace o = trace (pollPending frame
                             (set_deviceStateUpdateInProgress false this))
          /\ result o = Thrown) as [Htr Hres].
  { subst o. rewrite handleFrame_parts. cbv zeta. cbn [result trace].
    rewrite Hclear. unfold dispatch.
    rewrite decide_False by (rewrite Ht; discriminate).
    rewrite decide_True by exact Ht. rewrite decide_True by exact Hc.
    split; [|apply handleManagementLqiResponse_throws_iff; exact Hlen].
    unfold handleManagementLqiResponse. rewrite bind_outcome.
    rewrite registerNeighbors_throws by lia.
    cbn [trace]. rewrite registerNeighbors_silent. apply app_nil_r. }
  split; [exact Hres|]. split; [exact Hreg|]. split; [exact Htr|].
  rewrite Htr.
  destruct (pending_trace frame (set_deviceStateUpdateInProgress false this))
    as (Hz & _ & Hnc & _).
  split; assumption.
Qed.

Lemma short_table_stalls_walk_witness :
  let frame :=
    mkFrame APS_DATA_INDICATION (Some false) (Some false) ∅
            MANAGEMENT_LQI_RESPONSE 0 3 3 [entry "0001"; entry "0002"] in
  let o := handleFrame PARAM fieldName frame opened in
  (type frame = APS_DATA_INDICATION
   /\ clusterId frame = MANAGEMENT_LQI_RESPONSE
   /\ Z.of_nat (length (neighbors frame)) < numEntriesThisResponse frame)
  /\ result o = Thrown
  /\ trace o = []
  /\ size (node16 (final o)) = 2%nat.
Proof.
  split; [repeat split; cbn; lia|].
  pose proof (short_table_stalls_walk PARAM fieldName opened
                (mkFrame APS_DATA_INDICATION (Some false) (Some false) ∅
                         MANAGEMENT_LQI_RESPONSE 0 3 3
                         [entry "0001"; entry "0002"])
                eq_refl eq_refl ltac:(cbn; lia)) as H.
  cbv zeta in H. destruct H as (Hres & _ & Htr & _).
  split; [exact Hres|]. split; [exact Htr|].
  vm_compute. reflexivity.
Defined.

(** ** What the registry holds *)

Lemma register_all_cons nb table this :
  register_all (nb :: table) this = register_all table (register nb this).
Proof. reflexivity. Qed.

Lemma register_all_growth table this :
  dom (node16 (register_all table this))
  = dom (node16 this) ∪ list_to_set (neighbor_addr16 <$> table)
  /\ dom (node64 (register_all table this))
     = dom (node64 this) ∪ list_to_set (neighbor_addr64 <$> table)
  /\ allocated (register_all table this)
     = (allocated this + length table)%nat.
Proof.
  revert this. induction table as [|nb table IH]; intros this.
  - cbn [register_all foldl fmap list_fmap list_to_set length].
    rewrite !union_empty_r_L. repeat split; first [reflexivity | lia].
  - rewrite register_all_cons.
    destruct (IH (register nb this)) as (H16 & H64 & Hal).
    rewrite H16, H64, Hal. cbn [register node16 node64 allocated].
    rewrite !dom_insert_L. cbn [fmap list_fmap list_to_set length].
    repeat split; [| | lia].
    + rewrite (comm_L (∪) {[neighbor_addr16 nb]}), <- (assoc_L (∪)).
      reflexivity.
    + rewrite (comm_L (∪) {[neighbor_addr64 nb]}), <- (assoc_L (∪)).
      reflexivity.
Qed.

Lemma register_all_lookup_other16 table this short :
  (forall x, x ∈ table -> neighbor_addr16 x <> short) ->
  node16 (register_all table this) !! short = node16 this !! short.
Proof.
  revert this. induction table as [|nb table IH]; intros this Hne.
  - reflexivity.
  - rewrite register_all_cons, IH
      by (intros x Hx; apply Hne; right; exact Hx).
    cbn [register node16]. apply lookup_insert_ne, Hne. left.
Qed.

Lemma register_all_lookup_other64 table this long :
  (forall x, x ∈ table -> neighbor_addr64 x <> long) ->
  node64 (register_all table this) !! long = node64 this !! long.
Proof.
  revert this. induction table as [|nb table IH]; intros this Hne.
  - reflexivity.
  - rewrite register_all_cons, IH
      by (intros x Hx; apply Hne; right; exact Hx).
    cbn [register node64]. apply lookup_insert_ne, Hne. left.
Qed.

(** X10.  Handling a frame never takes a key out of the registry: the short
    (long) addresses under which a [Node] is found afterwards are those
    from before and the short (long) addresses of the entries the frame
    registers, and one [Node] is made per entry, repeated pairs included.
    So at the end of a run the registry knows exactly the addresses that
    the neighbor-table responses listed. *)
Theorem registry_grows_by_entries
    (PARAM : list PARAM_ID) (fieldName : PARAM_ID -> string)
    (this : DeconzTest) (frame : Frame) (frames : list Frame) :
  let o := handleFrame PARAM fieldName frame this in
  let ended := final (run PARAM fieldName frames) in
  (dom (node16 (final o))
   = dom (node16 this) ∪ list_to_set (neighbor_addr16 <$> entries frame)
   /\ dom (node64 (final o))
      = dom (node64 this) ∪ list_to_set (neighbor_addr64 <$> entries frame)
   /\ allocated (final o) = (allocated this + length (entries frame))%nat)
  /\ (dom (node16 ended)
      = list_to_set (neighbor_addr16 <$> flat_map entries frames)
      /\ dom (node64 ended)
         = list_to_set (neighbor_addr64 <$> flat_map entries frames)
      /\ allocated ended = length (flat_map entries frames)).
Proof.
  intros o ended. split.
  - destruct (handleFrame_registry PARAM fieldName frame this)
      as (H16 & H64 & Hal).
    subst o. rewrite H16, H64, Hal. apply register_all_growth.
  - destruct (run_registry PARAM fieldName frames) as (H16 & H64 & Hal).
    subst ended. rewrite H16, H64, Hal.
    destruct (register_all_growth (flat_map entries frames) constructed)
      as (G16 & G64 & Gal).
    rewrite G16, G64, Gal. cbn [constructed node16 node64 allocated].
    rewrite !dom_empty_L, !union_empty_l_L. repeat split.
Qed.

(** X11.  After a neighbor-table response is handled, the short address of
    an entry it registered leads to a [Node] with that entry's addresses,
    the one made for it, provided no later entry of the response has the
    same short address; likewise for the long address.  When a later entry
    has the same address, that later entry is found instead (the proviso
    then holds for it). *)
Theorem lookup_finds_last_entry
    (PARAM : list PARAM_ID) (fieldName : PARAM_ID -> string)
    (this : DeconzTest) (frame : Frame)
    (pre : list Neighbor) (nb : Neighbor) (post : list Neighbor) :
  entries frame = pre ++ nb :: post ->
  let o := handleFrame PARAM fieldName frame this in
  let node := mkNode (allocated this + length pre)
                     (neighbor_addr64 nb) (neighbor_addr16 nb) in
  ((forall x, x ∈ post -> neighbor_addr16 x <> neighbor_addr16 nb) ->
   node16 (final o) !! neighbor_addr16 nb = Some node)
  /\ ((forall x, x ∈ post -> neighbor_addr64 x <> neighbor_addr64 nb) ->
      node64 (final o) !! neighbor_addr64 nb = Some node).
Proof.
  intros Hentries o node.
  destruct (handleFrame_registry PARAM fieldName frame this)
    as (H16 & H64 & _).
  subst o. rewrite H16, H64, Hentries.
  rewrite register_all_app, register_all_cons.
  assert (allocated (register_all pre this) = (allocated this + length pre)%nat)
    as Hal by apply register_all_growth.
  split; intros Hlast.
  - rewrite register_all_lookup_other16 by exact Hlast.
    cbn [register node16]. rewrite lookup_insert_eq, Hal. reflexivity.
  - rewrite register_all_lookup_other64 by exact Hlast.
    cbn [register node64]. rewrite lookup_insert_eq, Hal. reflexivity.
Qed.

Lemma lookup_finds_last_entry_witness :
  let o := handleFrame PARAM fieldName page3 opened in
  entries page3 = [entry "000b"] ++ entry "000c" :: []
  /\ node16 (final o) !! "000c"
     = Some (mkNode 1 "00212effff00000c" "000c")
  /\ node64 (final o) !! "00212effff00000c"
     = Some (mkNode 1 "00212effff00000c" "000c").
Proof.
  split; [reflexivity|].
  pose proof (lookup_finds_last_entry PARAM fieldName opened page3
                [entry "000b"] (entry "000c") [] eq_refl) as H.
  cbv zeta in H. destruct H as [H16 H64].
  split; [apply H16 | apply H64]; intros x Hx; apply elem_of_nil in Hx;
    contradiction.
Defined.

(** ** Runs in pieces, and raw frames *)

Section Pieces.

Variable PARAM : list PARAM_ID.
Variable fieldName : PARAM_ID -> string.


Lemma deliver_app before after this :
  final (deliver PARAM fieldName (before ++ after) this)
  = final (deliver PARAM fieldName after
             (final (deliver PARAM fieldName before this)))
  /\ trace (deliver PARAM fieldName (before ++ after) this)
     = trace (deliver PARAM fieldName before this)
       ++ trace (deliver PARAM fieldName after
                   (final (deliver PARAM fieldName before this))).
Proof.
  revert this. induction before as [|frame rest IH]; intros this.
  - split; reflexivity.
  - cbn [app deliver]. rewrite !bind_outcome. cbn [onFrame result final trace].
    destruct (IH (final (handleFrame PARAM fieldName frame this)))
      as [Hf Ht].
    rewrite Hf, Ht, (assoc_L (++)). split; reflexivity.
Qed.

End Pieces.


(** X13.  With [raw_frames] set, the raw-frame listener leaves the object
    and the port as the frame listener does on the frames that the raw
    frames stand for: a raw frame that [canParse] turns down or on which
    [parseFrame] throws is passed over without any effect. *)
Theorem raw_frames_as_frames
    (PARAM : list PARAM_ID) (fieldName : PARAM_ID -> string)
    (RawFrame : Type) (canParse : RawFrame -> bool)
    (parseFrame : RawFrame -> completion Frame)
    (rawFrames : list RawFrame) (this : DeconzTest) :
  deliverRaw PARAM fieldName RawFrame canParse parseFrame rawFrames this
  = deliver PARAM fieldName
            (omap (decoded RawFrame canParse parseFrame) rawFrames) this.
Proof.
  assert (forall raw,
            onRawFrame PARAM fieldName RawFrame canParse parseFrame raw
            = match decoded RawFrame canParse parseFrame raw with
              | Some frame => onFrame PARAM fieldName frame
              | None => ret tt
              end) as Hraw.
  { intros raw. unfold onRawFrame, decoded.
    destruct (canParse raw); [destruct (parseFrame raw)|]; reflexivity. }
  revert this. induction rawFrames as [|raw rest IH]; intros this.
  - reflexivity.
  - cbn [deliverRaw omap list_omap]. rewrite Hraw.
    destruct (decoded RawFrame canParse parseFrame raw) as [frame|].
    + cbn [deliver]. rewrite !bind_outcome. cbn [onFrame result final trace].
      rewrite IH. reflexivity.
    + rewrite bind_outcome. cbn [ret result final trace app]. rewrite IH.
      destruct (deliver PARAM fieldName _ this). reflexivity.
Qed.

(** ** The port *)

Lemma isConBeePort_true port :
  isConBeePort port = true
  <-> vendorId port = Some "0403"
      /\ (productId port = Some "6015" \/ productId port = Some "6001")
      /\ manufacturer port = Some "FTDI".
Proof.
  unfold isConBeePort.
  rewrite !andb_true_iff, orb_true_iff, !bool_decide_eq_true. tauto.
Qed.

Lemma filter_singleton {A} (f : A -> bool) (l : list A) (x : A) :
  List.filter f l = [x]
  <-> exists pre post,
        l = pre ++ x :: post /\ f x = true
        /\ Forall (fun y => f y = false) pre
        /\ Forall (fun y => f y = false) post.
Proof.
  split.
  - induction l as [|a l IH]; [discriminate|].
    simpl. destruct (f a) eqn:Ha.
    + intros Heq. injection Heq as -> Hnil.
      exists [], l. repeat split; auto.
      clear -Hnil. induction l as [|b l IH]; [constructor|].
      simpl in Hnil. destruct (f b) eqn:Hb; [discriminate|].
      constructor; auto.
    + intros Heq. destruct (IH Heq) as (pre & post & -> & Hx & Hpre & Hpost).
      exists (a :: pre), post. repeat split; auto.
  - intros (pre & post & -> & Hx & Hpre & Hpost).
    rewrite List.filter_app. simpl. rewrite Hx.
    rewrite !filter_none by assumption. reflexivity.
Qed.

(** X14.  The driver is opened on a port exactly when listing the ports
    gave no error and that port is the only one of the list that is a
    ConBee: vendor 0403, product 6015 or 6001, manufacturer FTDI.  With no
    such port, or more than one, nothing is opened. *)
Theorem choosePort_opens_the_only_conbee
    (error : bool) (ports : list Port) (port : Port) :
  choosePort error ports = Opened port
  <-> error = false
      /\ vendorId port = Some "0403"
      /\ (productId port = Some "6015" \/ productId port = Some "6001")
      /\ manufacturer port = Some "FTDI"
      /\ exists pre post,
           ports = pre ++ port :: post
           /\ Forall (fun q => isConBeePort q = false) (pre ++ post).
Proof.
  assert (choosePort error ports = Opened port
          <-> error = false /\ List.filter isConBeePort ports = [port]) as ->.
  { unfold choosePort. destruct error; [split; [discriminate | intros [? _]; discriminate]|].
    destruct (List.filter isConBeePort ports) as [|a [|b rest]]; cbn.
    - split; [discriminate | intros [_ ?]; discriminate].
    - split; [intros [= ->]; auto | intros [_ [= ->]]; reflexivity].
    - rewrite decide_False by lia. rewrite decide_True by lia.
      split; [discriminate | intros [_ ?]; discriminate]. }
  rewrite filter_singleton. split.
  - intros (He & pre & post & -> & Hx & Hpre & Hpost).
    apply isConBeePort_true in Hx as (Hv & Hp & Hm).
    repeat split; auto. exists pre, post. split; [reflexivity|].
    apply Forall_app. auto.
  - intros (He & Hv & Hp & Hm & pre & post & -> & Hall).
    apply Forall_app in Hall as [Hpre Hpost].
    split; [exact He|]. exists pre, post. repeat split; auto.
    apply isConBeePort_true. auto.
Qed.

(** ** Edge cases of the walk and of the parameter phase *)

(** X15.  A neighbor-table response that returns no entry while its
    [startIndex] is below the total makes no progress: the registry stays
    as it is and the request written asks for the same [startIndex]
    again. *)
Theorem empty_page_asks_again
    (PARAM : list PARAM_ID) (fieldName : PARAM_ID -> string)
    (this : DeconzTest) (frame : Frame) :
  type frame = APS_DATA_INDICATION ->
  clusterId frame = MANAGEMENT_LQI_RESPONSE ->
  numEntriesThisResponse frame = 0 ->
  startIndex frame < numEntries frame ->
  let o := handleFrame PARAM fieldName frame this in
  result o = Normal tt
  /\ same_registry (final o) this
  /\ zdo_starts (trace o) = [startIndex frame]
  /\ PortClosed ∉ trace o.
Proof.
  intros Ht Hc Hzero Hlt o.
  assert (same_registry (final o) this) as Hreg.
  { subst o.
    eapply same_registry_trans; [apply handleFrame_registry|].
    unfold entries. rewrite decide_True by auto. rewrite Hzero.
    apply same_registry_refl. }
  assert (final (clearOnApsData frame this) =
          set_deviceStateUpdateInProgress false this) as Hclear
    by (unfold clearOnApsData; rewrite decide_True by auto; reflexivity).
  destruct (pending_trace frame (set_deviceStateUpdateInProgress false this))
    as (Hz & _ & Hnc & _).
  subst o. rewrite handleFrame_parts. cbv zeta. rewrite Hclear.
  unfold dispatch. rewrite decide_False by (rewrite Ht; discriminate).
  rewrite decide_True by exact Ht. rewrite decide_True by exact Hc.
  rewrite handleManagementLqiResponse_complete by lia. cbv zeta.
  rewrite Hzero, Z.add_0_r. rewrite decide_True by exact Hlt.
  cbn [result final trace].
  split; [reflexivity|]. split.
  { rewrite handleFrame_parts in Hreg. cbv zeta in Hreg.
    unfold dispatch in Hreg.
    rewrite decide_False in Hreg by (rewrite Ht; discriminate).
    rewrite decide_True in Hreg by exact Ht.
    rewrite decide_True in Hreg by exact Hc.
    rewrite handleManagementLqiResponse_complete in Hreg by lia.
    cbv zeta in Hreg. rewrite Hzero in Hreg. exact Hreg. }
  split.
  - unfold zdo_starts in *. rewrite omap_app, Hz. reflexivity.
  - rewrite elem_of_app. intros [Hin|Hin]; [exact (Hnc Hin)|].
    apply list_elem_of_singleton in Hin. discriminate.
Qed.

Lemma empty_page_asks_again_witness :
  let frame := lqi_response 5 12 [] in
  let o := handleFrame PARAM fieldName frame opened in
  (type frame = APS_DATA_INDICATION
   /\ clusterId frame = MANAGEMENT_LQI_RESPONSE
   /\ numEntriesThisResponse frame = 0
   /\ startIndex frame < numEntries frame)
  /\ zdo_starts (trace o) = [5].
Proof.
  split; [repeat split; cbn; lia|].
  pose proof (empty_page_asks_again PARAM fieldName opened
                (lqi_response 5 12 []) eq_refl eq_refl eq_refl
                ltac:(cbn; lia)) as H.
  cbv zeta in H. exact (proj1 (proj2 (proj2 H))).
Defined.

(** Every [Node] of the registry was made from an entry of [seen] and sits
    under its own address. *)
Lemma register_all_from_entries table this seen :
  (forall k node, node16 this !! k = Some node -> pair_of node ∈ seen) ->
  (forall k node, node64 this !! k = Some node -> pair_of node ∈ seen) ->
  (forall k node, node16 (register_all table this) !! k = Some node ->
     pair_of node ∈ seen ++ table)
  /\ (forall k node, node64 (register_all table this) !! k = Some node ->
        pair_of node ∈ seen ++ table).
Proof.
  revert this seen. induction table as [|nb table IH]; intros this seen H16 H64.
  - rewrite app_nil_r. split; assumption.
  - rewrite register_all_cons.
    replace (seen ++ nb :: table) with ((seen ++ [nb]) ++ table)
      by (rewrite <- (assoc_L (++)); reflexivity).
    apply IH; cbn [register node16 node64]; intros k node Hk;
      apply lookup_insert_Some in Hk as [[_ <-]|[_ Hk]];
      rewrite ?pair_of_register, elem_of_app;
      [right; left | left; eapply H16, Hk
      |right; left | left; eapply H64, Hk].
Qed.

(** X16.  At the end of any run, every [Node] found in the registry sits
    under its own address in the mapping that holds it, and carries the
    address pair of an entry that a neighbor-table response of the run
    registered: the registry holds no node that was not listed. *)
Theorem registry_nodes_were_listed
    (PARAM : list PARAM_ID) (fieldName : PARAM_ID -> string)
    (frames : list Frame) :
  let this := final (run PARAM fieldName frames) in
  (forall short node,
      node16 this !! short = Some node ->
      addr16 node = short /\ pair_of node ∈ flat_map entries frames)
  /\ (forall long node,
        node64 this !! long = Some node ->
        addr64 node = long /\ pair_of node ∈ flat_map entries frames).
Proof.
  intros this.
  destruct (run_keyed PARAM fieldName frames) as [K16 K64]. fold this in K16, K64.
  destruct (run_registry PARAM fieldName frames) as (H16 & H64 & _).
  fold this in H16, H64.
  destruct (register_all_from_entries (flat_map entries frames) constructed [])
    as [E16 E64];
    try (intros k node Hk; cbn in Hk; rewrite lookup_empty in Hk;
         discriminate).
  split; intros k node Hk.
  - split; [eapply K16, Hk|]. rewrite H16 in Hk. eapply E16, Hk.
  - split; [eapply K64, Hk|]. rewrite H64 in Hk. eapply E64, Hk.
Qed.

Section ParameterPhase.

Variable PARAM : list PARAM_ID.
Variable fieldName : PARAM_ID -> string.

Lemma run_snoc frames frame :
  final (run PARAM fieldName (frames ++ [frame]))
  = final (handleFrame PARAM fieldName frame
             (final (run PARAM fieldName frames))).
Proof.
  rewrite !run_parts. cbv zeta. cbn [final].
  rewrite (proj1 (deliver_app PARAM fieldName frames [frame] _)).
  reflexivity.
Qed.

Lemma handleFrame_accepted_final frame this p :
  type frame = READ_PARAMETER ->
  index PARAM (paramIdx this) = Some p ->
  paramIdx (final (handleFrame PARAM fieldName frame this))
  = paramIdx this + 1
  /\ fields (final (handleFrame PARAM fieldName frame this))
     = <[fieldName p := frame_field frame (fieldName p)]> (fields this).
Proof.
  intros Ht Hp.
  destruct (handleFrame_accepted PARAM fieldName frame this p Ht Hp)
    as (Ho & Hp' & Hf & Hi).
  rewrite Ho. cbv zeta. cbn [final].
  rewrite (dispatch_accepted PARAM fieldName frame _ p Ht Hp').
  repeat case_decide; cbn; rewrite Hf, Hi; split; reflexivity.
Qed.

End ParameterPhase.

(** X17.  The parameter phase end to end.  When the field names of the
    descriptors are pairwise different and the first frames of a run are
    parameter responses, no more of them than there are descriptors, then
    after them the cursor has counted them and the object holds, for each
    descriptor answered so far, the value its response carried under the
    descriptor's field name. *)
Theorem parameter_phase_collects_values
    (PARAM : list PARAM_ID) (fieldName : PARAM_ID -> string)
    (frames : list Frame) :
  NoDup (fieldName <$> PARAM) ->
  Forall (fun frame => type frame = READ_PARAMETER) frames ->
  (length frames <= length PARAM)%nat ->
  let this := final (run PARAM fieldName frames) in
  paramIdx this = Z.of_nat (length frames)
  /\ forall (i : nat) p frame,
       PARAM !! i = Some p -> frames !! i = Some frame ->
       get_field (fieldName p) this = frame_field frame (fieldName p).
Proof.
  intros Hnodup. cbv zeta.
  induction frames as [|frame frames IH] using rev_ind; intros Hall Hlen.
  - split.
    + rewrite run_parts. cbv zeta. cbn [final deliver ret].
      rewrite (proj2 (readParameters_start PARAM constructed)). reflexivity.
    + intros i p frame _ Hi. rewrite lookup_nil in Hi. discriminate.
  - apply Forall_app in Hall as [Hall Hframe].
    apply Forall_inv in Hframe.
    rewrite length_app in Hlen. cbn [length] in Hlen.
    destruct (IH Hall ltac:(lia)) as [Hidx Hval].
    assert (is_Some (PARAM !! length frames)) as [pk Hpk]
      by (apply lookup_lt_is_Some; lia).
    assert (index PARAM (paramIdx (final (run PARAM fieldName frames)))
            = Some pk) as Hindex.
    { rewrite Hidx. unfold index. rewrite decide_True by lia.
      rewrite Nat2Z.id. exact Hpk. }
    destruct (handleFrame_accepted_final PARAM fieldName frame _ pk
                Hframe Hindex) as [Hnext Hfields].
    rewrite run_snoc. split.
    + rewrite Hnext, Hidx, length_app. cbn [length]. lia.
    + intros i p f Hp Hf. unfold get_field. rewrite Hfields.
      destruct (decide (i = length frames)) as [->|Hne].
      * rewrite list_lookup_middle in Hf by reflexivity.
        injection Hf as <-. rewrite Hpk in Hp. injection Hp as <-.
        rewrite lookup_insert_eq. reflexivity.
      * assert (i < length frames)%nat as Hlt.
        { apply lookup_lt_Some in Hf. rewrite length_app in Hf.
          cbn [length] in Hf. lia. }
        rewrite lookup_app_l in Hf by exact Hlt.
        rewrite lookup_insert_ne.
        -- apply (Hval i p f Hp Hf).
        -- intros Heq. apply Hne.
           apply (NoDup_lookup _ _ _ (fieldName p) Hnodup).
           ++ rewrite list_lookup_fmap, Hp. reflexivity.
           ++ rewrite list_lookup_fmap, Hpk. cbn. rewrite Heq. reflexivity.
Qed.

Lemma parameter_phase_collects_values_witness :
  let frames :=
    [parameter_response false false "macAddress" (VString "00212effff000001");
     parameter_response true false "networkPanId16" (VNumber 6754)] in
  let this := final (run PARAM fieldName frames) in
  (NoDup (fieldName <$> PARAM)
   /\ Forall (fun frame => type frame = READ_PARAMETER) frames
   /\ (length frames <= length PARAM)%nat)
  /\ paramIdx this = 2
  /\ get_field "networkPanId16" this = VNumber 6754.
Proof.
  assert (NoDup (fieldName <$> PARAM)) as Hnodup
    by (apply (bool_decide_unpack (NoDup (fieldName <$> PARAM)));
        vm_compute; exact I).
  assert (Forall (fun frame => type frame = READ_PARAMETER)
            [parameter_response false false "macAddress"
               (VString "00212effff000001");
             parameter_response true false "networkPanId16" (VNumber 6754)])
    as Hall by (repeat constructor).
  assert (2 <= length PARAM)%nat as Hlen by (cbn; lia).
  split; [repeat split; assumption|].
  pose proof (parameter_phase_collects_values PARAM fieldName _
                Hnodup Hall Hlen) as H.
  cbv zeta in H. destruct H as [Hidx Hval].
  split; [exact Hidx|].
  exact (Hval 1%nat NETWORK_PANID16 _ eq_refl eq_refl).
Defined.
